(** * useWebSocket: connection lifecycle, reconnection policy and dispatch

    A shallow embedding of [frontend/src/hooks/useWebSocket.ts].  The hook's
    React state cells and refs become the fields of one record, every
    callback of the hook becomes a function on that record, and the outside
    world the hook talks to (the transport object, the browser timers, the
    caller's callbacks) is kept in the same record so that each effect of
    the source is visible: listeners registered on the transport, pending
    timers, and a log of the calls made to callbacks and to the transport. *)

From Stdlib Require Import ZArith QArith Qabs Qpower Qminmax List String Bool
  Lia Lqa.
Import ListNotations.

Local Open Scope Z_scope.
Local Open Scope string_scope.
Local Open Scope list_scope.

(** ** Data model *)

(** [enum ConnectionState] *)
Inductive ConnectionState : Type :=
| DISCONNECTED
| CONNECTING
| CONNECTED
| RECONNECTING.

Definition ConnectionState_eqb (a b : ConnectionState) : bool :=
  match a, b with
  | DISCONNECTED, DISCONNECTED => true
  | CONNECTING, CONNECTING => true
  | CONNECTED, CONNECTED => true
  | RECONNECTING, RECONNECTING => true
  | _, _ => false
  end.

(** [WsMessageType] is the tag of a message: ['connected'], ['error'],
    ['snapshot_update'], ['corridor_update'], ['anchor_update'], ... *)
Definition WsMessageType : Type := string.

(** [WsMessage]: an object with a [type] tag.  The hook reads
    [connection_id] of a ['connected'] message and [message] of an ['error']
    message; a property that the object does not carry reads as absent. *)
Record WsMessage : Type := mkWsMessage {
  type : WsMessageType;
  connection_id : option string;
  message : option string;
  payload : string
}.

(** [UseWebSocketOptions].  A callback of the caller is opaque to the hook,
    which only ever invokes it through [cb?.(...)]; the options record
    whether each one was supplied, and invocations are logged ([Call]). *)
Record UseWebSocketOptions : Type := mkOptions {
  autoConnect : bool;
  messageTypes : option (list WsMessageType);
  onMessage : bool;
  onConnect : bool;
  onDisconnect : bool;
  onError : bool;
  wsConfig_maxReconnectAttempts : option Z
}.

(** The calls the hook makes to the caller's callbacks, to the transport and
    to the console, in the order they happen. *)
Inductive Call : Type :=
| CallOnMessage (m : WsMessage)
| CallOnConnect
| CallOnDisconnect
| CallOnError (text : option string)
| CallWsConnect
| CallWsDisconnect
| CallWsPing
| CallConsoleError.

(** The two functions the hook registers as listeners: [handleMessage], and
    the arrow function of [connect] that handles connection failures. *)
Inductive Handler : Type :=
| HandleMessage
| ErrorListener.

Inductive Selector : Type :=
| OnType (t : WsMessageType)
| OnAny.

Record Listener : Type := mkListener {
  l_id : nat;
  l_selector : Selector;
  l_handler : Handler
}.

(** The transport object returned by [getWebSocketInstance], seen through
    the interface the hook uses.  [ws_throws] says whether its [connect()]
    throws; [ws_listeners] holds the registrations made by this hook. *)
Record Transport : Type := mkTransport {
  ws_isConnected : bool;
  ws_getConnectionId : option string;
  ws_throws : bool;
  ws_listeners : list Listener;
  ws_nextListener : nat
}.

(** Pending browser timers.  A callback closes over the [connectionState] of
    the render that created [connect]; that captured value travels with the
    timer.  [RetryTimer] is the [setTimeout] of [scheduleReconnect] (with
    its delay in ms), [SettleTimer] the 100 ms [setTimeout] of [reconnect],
    [PollInterval] the [setInterval] of [connect]. *)
Inductive TimerKind : Type :=
| RetryTimer (captured : ConnectionState) (delay : Q)
| SettleTimer (captured : ConnectionState)
| PollInterval (captured : ConnectionState).

Record Timer : Type := mkTimer {
  t_id : nat;
  t_kind : TimerKind
}.

(** The closures pushed on [unsubscribersRef.current]. *)
Inductive Disposer : Type :=
| Unsub (listener : nat)
| ClearInterval (timer : nat).

(** The hook: four [useState] cells, five [useRef] cells other than
    [wsRef], the transport behind [wsRef], the timers and the call log. *)
Record Hook : Type := mkHook {
  isConnected : bool;
  connectionId : option string;
  lastMessage : option WsMessage;
  connectionState : ConnectionState;
  unsubscribersRef : list Disposer;
  isConnectingRef : bool;
  reconnectTimeoutRef : option nat;
  reconnectAttemptsRef : Z;
  shouldReconnectRef : bool;
  wsRef : Transport;
  timers : list Timer;
  nextTimer : nat;
  calls : list Call
}.

Definition set_isConnected (v : bool) (st : Hook) : Hook :=
  {| isConnected := v; connectionId := connectionId st;
     lastMessage := lastMessage st; connectionState := connectionState st;
     unsubscribersRef := unsubscribersRef st;
     isConnectingRef := isConnectingRef st;
     reconnectTimeoutRef := reconnectTimeoutRef st;
     reconnectAttemptsRef := reconnectAttemptsRef st;
     shouldReconnectRef := shouldReconnectRef st; wsRef := wsRef st;
     timers := timers st; nextTimer := nextTimer st; calls := calls st |}.

Definition set_connectionId (v : option string) (st : Hook) : Hook :=
  {| isConnected := isConnected st; connectionId := v;
     lastMessage := lastMessage st; connectionState := connectionState st;
     unsubscribersRef := unsubscribersRef st;
     isConnectingRef := isConnectingRef st;
     reconnectTimeoutRef := reconnectTimeoutRef st;
     reconnectAttemptsRef := reconnectAttemptsRef st;
     shouldReconnectRef := shouldReconnectRef st; wsRef := wsRef st;
     timers := timers st; nextTimer := nextTimer st; calls := calls st |}.

Definition set_lastMessage (v : option WsMessage) (st : Hook) : Hook :=
  {| isConnected := isConnected st; connectionId := connectionId st;
     lastMessage := v; connectionState := connectionState st;
     unsubscribersRef := unsubscribersRef st;
     isConnectingRef := isConnectingRef st;
     reconnectTimeoutRef := reconnectTimeoutRef st;
     reconnectAttemptsRef := reconnectAttemptsRef st;
     shouldReconnectRef := shouldReconnectRef st; wsRef := wsRef st;
     timers := timers st; nextTimer := nextTimer st; calls := calls st |}.

Definition set_connectionState (v : ConnectionState) (st : Hook) : Hook :=
  {| isConnected := isConnected st; connectionId := connectionId st;
     lastMessage := lastMessage st; connectionState := v;
     unsubscribersRef := unsubscribersRef st;
     isConnectingRef := isConnectingRef st;
     reconnectTimeoutRef := reconnectTimeoutRef st;
     reconnectAttemptsRef := reconnectAttemptsRef st;
     shouldReconnectRef := shouldReconnectRef st; wsRef := wsRef st;
     timers := timers st; nextTimer := nextTimer st; calls := calls st |}.

Definition set_unsubscribersRef (v : list Disposer) (st : Hook) : Hook :=
  {| isConnected := isConnected st; connectionId := connectionId st;
     lastMessage := lastMessage st; connectionState := connectionState st;
     unsubscribersRef := v; isConnectingRef := isConnectingRef st;
     reconnectTimeoutRef := reconnectTimeoutRef st;
     reconnectAttemptsRef := reconnectAttemptsRef st;
     shouldReconnectRef := shouldReconnectRef st; wsRef := wsRef st;
     timers := timers st; nextTimer := nextTimer st; calls := calls st |}.

Definition set_isConnectingRef (v : bool) (st : Hook) : Hook :=
  {| isConnected := isConnected st; connectionId := connectionId st;
     lastMessage := lastMessage st; connectionState := connectionState st;
     unsubscribersRef := unsubscribersRef st; isConnectingRef := v;
     reconnectTimeoutRef := reconnectTimeoutRef st;
     reconnectAttemptsRef := reconnectAttemptsRef st;
     shouldReconnectRef := shouldReconnectRef st; wsRef := wsRef st;
     timers := timers st; nextTimer := nextTimer st; calls := calls st |}.

Definition set_reconnectTimeoutRef (v : option nat) (st : Hook) : Hook :=
  {| isConnected := isConnected st; connectionId := connectionId st;
     lastMessage := lastMessage st; connectionState := connectionState st;
     unsubscribersRef := unsubscribersRef st;
     isConnectingRef := isConnectingRef st; reconnectTimeoutRef := v;
     reconnectAttemptsRef := reconnectAttemptsRef st;
     shouldReconnectRef := shouldReconnectRef st; wsRef := wsRef st;
     timers := timers st; nextTimer := nextTimer st; calls := calls st |}.

Definition set_reconnectAttemptsRef (v : Z) (st : Hook) : Hook :=
  {| isConnected := isConnected st; connectionId := connectionId st;
     lastMessage := lastMessage st; connectionState := connectionState st;
     unsubscribersRef := unsubscribersRef st;
     isConnectingRef := isConnectingRef st;
     reconnectTimeoutRef := reconnectTimeoutRef st;
     reconnectAttemptsRef := v; shouldReconnectRef := shouldReconnectRef st;
     wsRef := wsRef st; timers := timers st; nextTimer := nextTimer st;
     calls := calls st |}.

Definition set_shouldReconnectRef (v : bool) (st : Hook) : Hook :=
  {| isConnected := isConnected st; connectionId := connectionId st;
     lastMessage := lastMessage st; connectionState := connectionState st;
     unsubscribersRef := unsubscribersRef st;
     isConnectingRef := isConnectingRef st;
     reconnectTimeoutRef := reconnectTimeoutRef st;
     reconnectAttemptsRef := reconnectAttemptsRef st;
     shouldReconnectRef := v; wsRef := wsRef st; timers := timers st;
     nextTimer := nextTimer st; calls := calls st |}.

Definition set_wsRef (v : Transport) (st : Hook) : Hook :=
  {| isConnected := isConnected st; connectionId := connectionId st;
     lastMessage := lastMessage st; connectionState := connectionState st;
     unsubscribersRef := unsubscribersRef st;
     isConnectingRef := isConnectingRef st;
     reconnectTimeoutRef := reconnectTimeoutRef st;
     reconnectAttemptsRef := reconnectAttemptsRef st;
     shouldReconnectRef := shouldReconnectRef st; wsRef := v;
     timers := timers st; nextTimer := nextTimer st; calls := calls st |}.

Definition set_timers (v : list Timer) (st : Hook) : Hook :=
  {| isConnected := isConnected st; connectionId := connectionId st;
     lastMessage := lastMessage st; connectionState := connectionState st;
     unsubscribersRef := unsubscribersRef st;
     isConnectingRef := isConnectingRef st;
     reconnectTimeoutRef := reconnectTimeoutRef st;
     reconnectAttemptsRef := reconnectAttemptsRef st;
     shouldReconnectRef := shouldReconnectRef st; wsRef := wsRef st;
     timers := v; nextTimer := nextTimer st; calls := calls st |}.

Definition set_nextTimer (v : nat) (st : Hook) : Hook :=
  {| isConnected := isConnected st; connectionId := connectionId st;
     lastMessage := lastMessage st; connectionState := connectionState st;
     unsubscribersRef := unsubscribersRef st;
     isConnectingRef := isConnectingRef st;
     reconnectTimeoutRef := reconnectTimeoutRef st;
     reconnectAttemptsRef := reconnectAttemptsRef st;
     shouldReconnectRef := shouldReconnectRef st; wsRef := wsRef st;
     timers := timers st; nextTimer := v; calls := calls st |}.

Definition set_calls (v : list Call) (st : Hook) : Hook :=
  {| isConnected := isConnected st; connectionId := connectionId st;
     lastMessage := lastMessage st; connectionState := connectionState st;
     unsubscribersRef := unsubscribersRef st;
     isConnectingRef := isConnectingRef st;
     reconnectTimeoutRef := reconnectTimeoutRef st;
     reconnectAttemptsRef := reconnectAttemptsRef st;
     shouldReconnectRef := shouldReconnectRef st; wsRef := wsRef st;
     timers := timers st; nextTimer := nextTimer st; calls := v |}.


(** ** Primitives of the environment *)

Definition log (c : Call) (st : Hook) : Hook :=
  set_calls (calls st ++ [c]) st.

(** [cb?.(...)]: the callback is invoked when it was supplied. *)
Definition invoke (supplied : bool) (c : Call) (st : Hook) : Hook :=
  if supplied then log c st else st.

Definition with_listeners (ls : list Listener) (next : nat) (ws : Transport)
  : Transport :=
  {| ws_isConnected := ws_isConnected ws;
     ws_getConnectionId := ws_getConnectionId ws;
     ws_throws := ws_throws ws;
     ws_listeners := ls;
     ws_nextListener := next |}.

(** Modelled from the spec: the transport of [@/lib/websocket] is outside
    the sources; its contract is [on(type, handler) -> disposer] and
    [onAny(handler) -> disposer].  A registration is appended to the
    transport's listener list and the returned disposer removes it. *)
Definition ws_subscribe (sel : Selector) (h : Handler) (st : Hook)
  : Hook * Disposer :=
  let ws := wsRef st in
  let id := ws_nextListener ws in
  (set_wsRef
     (with_listeners (ws_listeners ws ++ [mkListener id sel h]) (S id) ws) st,
   Unsub id).

Definition ws_on (t : WsMessageType) := ws_subscribe (OnType t).
Definition ws_onAny := ws_subscribe OnAny.

(** Modelled from the spec: the disposer returned by [on]/[onAny] removes
    its registration from the transport. *)
Definition ws_off (id : nat) (st : Hook) : Hook :=
  let ws := wsRef st in
  set_wsRef
    (with_listeners
       (filter (fun l => negb (Nat.eqb (l_id l) id)) (ws_listeners ws))
       (ws_nextListener ws) ws) st.

(** Modelled from the spec: the transport's [connect()] initiates opening
    and returns at once; the hook wraps it in [try]/[catch], so the result
    says whether it threw.  The connection itself opens later, if at all. *)
Definition ws_connect (st : Hook) : Hook * bool :=
  (log CallWsConnect st, ws_throws (wsRef st)).

(** Modelled from the spec: the transport's [disconnect()] closes the
    connection if it is open. *)
Definition ws_disconnect (st : Hook) : Hook :=
  let ws := wsRef st in
  log CallWsDisconnect
    (set_wsRef
       {| ws_isConnected := false;
          ws_getConnectionId := None;
          ws_throws := ws_throws ws;
          ws_listeners := ws_listeners ws;
          ws_nextListener := ws_nextListener ws |} st).

Definition ws_ping (st : Hook) : Hook := log CallWsPing st.

(** [setTimeout]/[setInterval]: a fresh handle, the timer becomes pending. *)
Definition setTimer (k : TimerKind) (st : Hook) : Hook * nat :=
  let id := nextTimer st in
  (set_nextTimer (S id) (set_timers (timers st ++ [mkTimer id k]) st), id).

(** [clearTimeout]/[clearInterval]: the timer with that handle, if it is
    pending, is dropped; any other handle is ignored. *)
Definition clearTimer (id : nat) (st : Hook) : Hook :=
  set_timers (filter (fun t => negb (Nat.eqb (t_id t) id)) (timers st)) st.

Definition isRetry (t : Timer) : bool :=
  match t_kind t with RetryTimer _ _ => true | _ => false end.

Definition isSettle (t : Timer) : bool :=
  match t_kind t with SettleTimer _ => true | _ => false end.

Definition isPoll (t : Timer) : bool :=
  match t_kind t with PollInterval _ => true | _ => false end.

Definition isWsConnect (c : Call) : bool :=
  match c with CallWsConnect => true | _ => false end.

Definition isOnMessage (c : Call) : bool :=
  match c with CallOnMessage _ => true | _ => false end.

(** ** Numbers

    The delay of a retry is computed in JS numbers, that is in IEEE 754
    binary64 with rounding to nearest, ties to even.  A finite double is
    kept as the rational number it denotes. *)

(** [floor (log2 (n / d))] for positive [n] and [d]. *)
Definition exponent (n d : Z) : Z :=
  let e0 := Z.log2 n - Z.log2 d in
  if (if 0 <=? e0 then d * 2 ^ e0 <=? n else d <=? n * 2 ^ (- e0))%Z
  then e0 else e0 - 1.

(** The integer nearest to [n / d] for a positive [d], a tie going to the
    even one. *)
Definition nearestEven (n d : Z) : Z :=
  let q := n / d in
  let r := n mod d in
  match 2 * r ?= d with
  | Lt => q
  | Gt => q + 1
  | Eq => if Z.even q then q else q + 1
  end.

(** The multiple of [2^k] nearest to [x], where [2^k] is the spacing of the
    doubles at the magnitude of [x]: a significand of 53 bits, and below
    [2^-1022] the fixed spacing [2^-1074] of the subnormal range.  This is
    the double that [x] rounds to, as long as it is in the finite range. *)
Definition double (x : Q) : Q :=
  let n := Qnum x in
  let d := Zpos (Qden x) in
  if (n =? 0)%Z then 0%Q
  else
    let a := Z.abs n in
    let k := Z.max (exponent a d - 52) (-1074) in
    let r :=
      if (0 <=? k)%Z then inject_Z (nearestEven a (d * 2 ^ k) * 2 ^ k)
      else Qred (nearestEven (a * 2 ^ (- k)) d # Z.to_pos (2 ^ (- k))) in
    if (n <? 0)%Z then (- r)%Q else r.

(** The largest finite double is [2^1024 - 2^971]; what lies half a step
    above it or further rounds to an infinity. *)
Definition overflows (x : Q) : bool :=
  Qle_bool (inject_Z (2 ^ 1024 - 2 ^ 970)) (Qabs x).

(** The numbers that the delay computation can meet.  [Math.random()] is
    not negative and the attempt number is an integer, so that no operand
    is negative, none is NaN, and the one special value is [Infinity]. *)
Inductive Number : Type :=
| Finite (q : Q)
| Infinity.

Definition round (x : Q) : Number :=
  if overflows x then Infinity else Finite (double x).

(** [Math.pow(2, n)] for an integer [n]. *)
Definition Math_pow2 (n : Z) : Number := round (Qpower 2 n).

(** [x * y] for operands that are not zero, or are both finite. *)
Definition mulNumber (x y : Number) : Number :=
  match x, y with
  | Finite a, Finite b => round (a * b)
  | _, _ => Infinity
  end.

(** [x + y] *)
Definition addNumber (x y : Number) : Number :=
  match x, y with
  | Finite a, Finite b => round (a + b)
  | _, _ => Infinity
  end.

(** [Math.min(x, y)] for a finite [y]. *)
Definition Math_min (x : Number) (y : Q) : Q :=
  match x with
  | Finite a => Qmin a y
  | Infinity => y
  end.

(** ** The hook *)

Section UseWebSocket.

Variable options : UseWebSocketOptions.

(** [wsConfig.maxReconnectAttempts || 5]: absent and [0] both give 5. *)
Definition maxReconnectAttempts : Z :=
  match wsConfig_maxReconnectAttempts options with
  | None => 5
  | Some n => if (n =? 0)%Z then 5 else n
  end.

(** First render: the [useState] and [useRef] initial values, over a
    transport on which this hook has registered nothing yet. *)
Definition initial : Hook :=
  {| isConnected := false;
     connectionId := None;
     lastMessage := None;
     connectionState := DISCONNECTED;
     unsubscribersRef := [];
     isConnectingRef := false;
     reconnectTimeoutRef := None;
     reconnectAttemptsRef := 0;
     shouldReconnectRef := true;
     wsRef := {| ws_isConnected := false;
                 ws_getConnectionId := None;
                 ws_throws := false;
                 ws_listeners := [];
                 ws_nextListener := 1 |};
     timers := [];
     nextTimer := 1;
     calls := [] |}.

(** [handleMessage] *)
Definition handleMessage (m : WsMessage) (st : Hook) : Hook :=
  let st := set_lastMessage (Some m) st in
  let st :=
    if (type m =? "connected")%string then
      let st := set_isConnected true st in
      let st := set_connectionId (connection_id m) st in
      let st := set_connectionState CONNECTED st in
      let st := set_isConnectingRef false st in
      let st := set_reconnectAttemptsRef 0 st in
      invoke (onConnect options) CallOnConnect st
    else st in
  let st :=
    if (type m =? "error")%string then
      invoke (onError options) (CallOnError (message m)) st
    else st in
  invoke (onMessage options) (CallOnMessage m) st.

(** The listener [connect] registers on ['error']. *)
Definition errorListener (st : Hook) : Hook :=
  let st := set_isConnectingRef false st in
  set_connectionState DISCONNECTED st.

Definition runDisposer (st : Hook) (d : Disposer) : Hook :=
  match d with
  | Unsub id => ws_off id st
  | ClearInterval id => clearTimer id st
  end.

(** [unsubscribersRef.current.forEach((unsub) => unsub());
    unsubscribersRef.current = [];] *)
Definition disposeAll (st : Hook) : Hook :=
  let st := fold_left runDisposer (unsubscribersRef st) st in
  set_unsubscribersRef [] st.

Definition push (d : Disposer) (st : Hook) : Hook :=
  set_unsubscribersRef (unsubscribersRef st ++ [d]) st.

(** [const unsub = ws.on(...); unsubscribersRef.current.push(unsub);] *)
Definition track (registered : Hook * Disposer) : Hook :=
  let (st, unsub) := registered in
  push unsub st.

(** [connect]; [captured] is the [connectionState] that the closure saw
    when [useCallback] created it, which the polling callback reads. *)
Definition connect (captured : ConnectionState) (st : Hook) : Hook :=
  if isConnectingRef st then st
  else if ws_isConnected (wsRef st) then st
  else
    let st := set_isConnectingRef true st in
    let st := set_connectionState CONNECTING st in
    let st := disposeAll st in
    let st :=
      match messageTypes options with
      | Some (t :: ts) =>
          fold_left (fun st type => track (ws_on type HandleMessage st))
                    (t :: ts) st
      | _ => track (ws_onAny HandleMessage st)
      end in
    let st := track (ws_on "error" ErrorListener st) in
    let st :=
      let (st, threw) := ws_connect st in
      if threw then
        let st := set_isConnectingRef false st in
        let st := set_connectionState DISCONNECTED st in
        log CallConsoleError st
      else st in
    let (st, checkInterval) := setTimer (PollInterval captured) st in
    push (ClearInterval checkInterval) st.

(** The delay of [scheduleReconnect] for the attempt number [attempts]
    (already incremented); [random] is the value of [Math.random()], a
    double in [[0, 1)]. *)
Definition reconnectDelay (attempts : Z) (random : Q) : Q :=
  let baseDelay := Finite 1000 in
  let exponentialDelay := mulNumber baseDelay (Math_pow2 (attempts - 1)) in
  let jitter := mulNumber (Finite random) (Finite 1000) in
  let delay := Math_min (addNumber exponentialDelay jitter) 30000 in
  delay.

(** [if (reconnectTimeoutRef.current) { clearTimeout(...);
    reconnectTimeoutRef.current = null; }], as written at the head of
    [scheduleReconnect] and again in [disconnect].  A handle is never falsy. *)
Definition clearReconnectTimeout (st : Hook) : Hook :=
  match reconnectTimeoutRef st with
  | Some id => set_reconnectTimeoutRef None (clearTimer id st)
  | None => st
  end.

(** [scheduleReconnect]; [captured] belongs to the [connect] closure that
    the timer will call. *)
Definition scheduleReconnect (captured : ConnectionState) (random : Q)
    (st : Hook) : Hook :=
  let st := clearReconnectTimeout st in
  if negb (shouldReconnectRef st)
     || (maxReconnectAttempts <=? reconnectAttemptsRef st)%Z then
    let st := set_connectionState DISCONNECTED st in
    set_isConnectingRef false st
  else
    let st := set_reconnectAttemptsRef (reconnectAttemptsRef st + 1) st in
    let st := set_connectionState RECONNECTING st in
    let delay := reconnectDelay (reconnectAttemptsRef st) random in
    let (st, id) := setTimer (RetryTimer captured delay) st in
    set_reconnectTimeoutRef (Some id) st.

(** The callback of the [setInterval] in [connect]. *)
Definition checkConnection (captured : ConnectionState) (random : Q)
    (st : Hook) : Hook :=
  let connected := ws_isConnected (wsRef st) in
  let st := set_isConnected connected st in
  if connected then
    let st := set_connectionId (ws_getConnectionId (wsRef st)) st in
    if negb (ConnectionState_eqb captured CONNECTED) then
      let st := set_connectionState CONNECTED st in
      set_isConnectingRef false st
    else st
  else
    let st := set_connectionId None st in
    if ConnectionState_eqb captured CONNECTED
       || ConnectionState_eqb captured CONNECTING then
      if shouldReconnectRef st
         && (reconnectAttemptsRef st <? maxReconnectAttempts)%Z then
        scheduleReconnect captured random st
      else
        let st := set_connectionState DISCONNECTED st in
        set_isConnectingRef false st
    else st.

(** The callback of the [setTimeout] in [scheduleReconnect]. *)
Definition retryFires (captured : ConnectionState) (st : Hook) : Hook :=
  let st := set_isConnectingRef false st in
  connect captured st.

(** [disconnect] *)
Definition disconnect (st : Hook) : Hook :=
  let st := set_shouldReconnectRef false st in
  let st := set_isConnectingRef false st in
  let st := clearReconnectTimeout st in
  let st := disposeAll st in
  let st := ws_disconnect st in
  let st := set_isConnected false st in
  let st := set_connectionId None st in
  let st := set_connectionState DISCONNECTED st in
  let st := set_reconnectAttemptsRef 0 st in
  invoke (onDisconnect options) CallOnDisconnect st.

(** [reconnect], returned to the caller under the name [connect]. *)
Definition reconnect (captured : ConnectionState) (st : Hook) : Hook :=
  let st := disconnect st in
  let st := set_reconnectAttemptsRef 0 st in
  let st := set_shouldReconnectRef true st in
  fst (setTimer (SettleTimer captured) st).

(** [ping] *)
Definition ping (st : Hook) : Hook := ws_ping st.

(** The [useEffect]: its body, and the cleanup it returns. *)
Definition effect (captured : ConnectionState) (st : Hook) : Hook :=
  if autoConnect options then
    let st := set_shouldReconnectRef true st in
    connect captured st
  else st.

Definition cleanup (st : Hook) : Hook :=
  let st := set_shouldReconnectRef false st in
  disconnect st.

(** ** Events *)

Definition runHandler (m : WsMessage) (st : Hook) (h : Handler) : Hook :=
  match h with
  | HandleMessage => handleMessage m st
  | ErrorListener => errorListener st
  end.

Definition matches (m : WsMessage) (l : Listener) : bool :=
  match l_selector l with
  | OnType t => (t =? type m)%string
  | OnAny => true
  end.

(** Modelled from the spec: the transport hands an inbound message to the
    listeners registered for its tag and to the wildcard listeners, in
    registration order; a listener for another tag does not see it. *)
Definition ws_emit (m : WsMessage) (st : Hook) : Hook :=
  fold_left (runHandler m)
            (map l_handler (filter (matches m) (ws_listeners (wsRef st)))) st.

Definition findTimer (id : nat) (st : Hook) : option Timer :=
  find (fun t => Nat.eqb (t_id t) id) (timers st).

(** A pending timer comes due.  A timeout leaves the pending list when it
    runs (its handle may linger in [reconnectTimeoutRef]); an interval
    stays pending.  A handle that is not pending runs nothing. *)
Definition timerFires (id : nat) (random : Q) (st : Hook) : Hook :=
  match findTimer id st with
  | None => st
  | Some t =>
      match t_kind t with
      | RetryTimer captured _ => retryFires captured (clearTimer id st)
      | SettleTimer captured => connect captured (clearTimer id st)
      | PollInterval captured => checkConnection captured random st
      end
  end.

(** What can happen to a mounted hook: the effect and its cleanup run, the
    caller uses the returned [connect] (that is [reconnect]), [disconnect]
    or [ping], the transport delivers a message, a timer comes due, or the
    transport's own condition changes behind the hook's back. *)
Inductive Event : Type :=
| EvEffect (captured : ConnectionState)
| EvCleanup
| EvReconnect (captured : ConnectionState)
| EvDisconnect
| EvPing
| EvMessage (m : WsMessage)
| EvTimer (id : nat) (random : Q)
| EvTransport (connected : bool) (id : option string) (throws : bool).

Definition transportChanges (connected : bool) (id : option string)
    (throws : bool) (st : Hook) : Hook :=
  let ws := wsRef st in
  set_wsRef
    {| ws_isConnected := connected;
       ws_getConnectionId := id;
       ws_throws := throws;
       ws_listeners := ws_listeners ws;
       ws_nextListener := ws_nextListener ws |} st.

Definition step (st : Hook) (e : Event) : Hook :=
  match e with
  | EvEffect captured => effect captured st
  | EvCleanup => cleanup st
  | EvReconnect captured => reconnect captured st
  | EvDisconnect => disconnect st
  | EvPing => ping st
  | EvMessage m => ws_emit m st
  | EvTimer id random => timerFires id random st
  | EvTransport connected id throws => transportChanges connected id throws st
  end.

Definition run (es : list Event) (st : Hook) : Hook := fold_left step es st.

Definition reachable (st : Hook) : Prop :=
  exists es : list Event, st = run es initial.

End UseWebSocket.

(** ** Observations used by the statements *)

Definition default_options : UseWebSocketOptions :=
  {| autoConnect := true;
     messageTypes := None;
     onMessage := true;
     onConnect := true;
     onDisconnect := true;
     onError := true;
     wsConfig_maxReconnectAttempts := None |}.

(** How many times the transport's [connect()] has been invoked. *)
Definition transportConnects (st : Hook) : nat :=
  List.length (filter isWsConnect (calls st)).

(** The [onMessage] invocations so far, in order. *)
Definition onMessageCalls (st : Hook) : list Call :=
  filter isOnMessage (calls st).

Definition pendingRetries (st : Hook) : list Timer :=
  filter isRetry (timers st).

Definition pendingPolls (st : Hook) : list Timer :=
  filter isPoll (timers st).

Definition pendingSettles (st : Hook) : list Timer :=
  filter isSettle (timers st).

Definition disposedListener (ds : list Disposer) (l : Listener) : bool :=
  existsb (fun d => match d with
                    | Unsub id => Nat.eqb (l_id l) id
                    | ClearInterval _ => false
                    end) ds.

Definition disposedTimer (ds : list Disposer) (t : Timer) : bool :=
  existsb (fun d => match d with
                    | Unsub _ => false
                    | ClearInterval id => Nat.eqb (t_id t) id
                    end) ds.

(** The listeners one [connect] registers, the first of them under the
    identifier [base]: one per entry of a non-empty [messageTypes], else
    one wildcard listener; then the listener on ['error']. *)
Fixpoint typeListeners (base : nat) (ts : list WsMessageType)
  : list Listener :=
  match ts with
  | [] => []
  | t :: ts => mkListener base (OnType t) HandleMessage
               :: typeListeners (S base) ts
  end.

Definition messageListeners (options : UseWebSocketOptions) (base : nat)
  : list Listener :=
  match messageTypes options with
  | Some (t :: ts) => typeListeners base (t :: ts)
  | _ => [mkListener base OnAny HandleMessage]
  end.

Definition subscriptions (options : UseWebSocketOptions) (base : nat)
  : list Listener :=
  let ls := messageListeners options base in
  ls ++ [mkListener (base + List.length ls) (OnType "error") ErrorListener].

(** What holds of the hook after any sequence of events. *)
Record invariant (options : UseWebSocketOptions) (st : Hook) : Prop := {
  inv_attempts :
    0 <= reconnectAttemptsRef st <= Z.max 0 (maxReconnectAttempts options);
  inv_timer_fresh :
    forall t, In t (timers st) -> (t_id t < nextTimer st)%nat;
  inv_timer_nodup : NoDup (map t_id (timers st));
  inv_retry :
    forall t, In t (timers st) -> isRetry t = true ->
              reconnectTimeoutRef st = Some (t_id t);
  inv_handle_fresh :
    forall id, reconnectTimeoutRef st = Some id -> (id < nextTimer st)%nat;
  inv_handle_retry :
    forall t, In t (timers st) -> reconnectTimeoutRef st = Some (t_id t) ->
              isRetry t = true;
  inv_poll :
    forall t, In t (timers st) -> isPoll t = true ->
              In (ClearInterval (t_id t)) (unsubscribersRef st);
  inv_tracked :
    forall l, In l (ws_listeners (wsRef st)) ->
              In (Unsub (l_id l)) (unsubscribersRef st);
  inv_listeners :
    ws_listeners (wsRef st) = [] \/
    exists base, ws_listeners (wsRef st) = subscriptions options base
}.

(** The condition under which [scheduleReconnect] and the polling callback
    go on to retry. *)
Definition retryDecision (options : UseWebSocketOptions) (st : Hook) : Prop :=
  shouldReconnectRef st = true /\
  reconnectAttemptsRef st < maxReconnectAttempts options.

(** A configuration that allows six attempts. *)
Definition six_attempts : UseWebSocketOptions :=
  {| autoConnect := true;
     messageTypes := None;
     onMessage := true;
     onConnect := true;
     onDisconnect := true;
     onError := true;
     wsConfig_maxReconnectAttempts := Some 6 |}.



(** ** Proof automation *)

(** Reading a field through the setters, without unfolding anything else. *)
Ltac fields :=
  cbn [isConnected connectionId lastMessage connectionState unsubscribersRef
       isConnectingRef reconnectTimeoutRef reconnectAttemptsRef
       shouldReconnectRef wsRef timers nextTimer calls
       set_isConnected set_connectionId set_lastMessage set_connectionState
       set_unsubscribersRef set_isConnectingRef set_reconnectTimeoutRef
       set_reconnectAttemptsRef set_shouldReconnectRef set_wsRef set_timers
       set_nextTimer set_calls
       ws_isConnected ws_getConnectionId ws_throws ws_listeners
       ws_nextListener with_listeners log fst snd] in *.

Ltac splits := repeat match goal with |- _ /\ _ => split end.

(** ** The hooks built on [useWebSocket] *)

(** [useSnapshotUpdates], [useCorridorUpdates] and [useAnchorUpdates] call
    [useWebSocket({ messageTypes: [tag], onMessage })] with nothing else. *)
Definition updatesOptions (tag : WsMessageType) : UseWebSocketOptions :=
  {| autoConnect := true;
     messageTypes := Some [tag];
     onMessage := true;
     onConnect := false;
     onDisconnect := false;
     onError := false;
     wsConfig_maxReconnectAttempts := None |}.

Definition useSnapshotUpdates : UseWebSocketOptions :=
  updatesOptions "snapshot_update".


Definition useAnchorUpdates : UseWebSocketOptions :=
  updatesOptions "anchor_update".

(** Their [onMessage]: [if (message.type === tag) { onUpdate(message); }];
    the result lists the [onUpdate] invocations it makes. *)
Definition updatesOnMessage (tag : WsMessageType) (m : WsMessage)
  : list WsMessage :=
  if (type m =? tag)%string then [m] else [].

(** The arguments of the [onMessage] invocations of a call log, and the
    [onUpdate] invocations that the wrapper's [onMessage] makes of them. *)
Definition onMessageArguments (cs : list Call) : list WsMessage :=
  flat_map (fun c => match c with CallOnMessage m => [m] | _ => [] end) cs.

Definition onUpdateCalls (tag : WsMessageType) (cs : list Call)
  : list WsMessage :=
  flat_map (updatesOnMessage tag) (onMessageArguments cs).

(** ** Further observations *)

(** A callback invocation that a tag allow-list lets through. *)
Definition callAllowed (types : list WsMessageType) (c : Call) : Prop :=
  match c with
  | CallOnMessage m => In (type m) types
  | CallOnConnect => In "connected" types
  | CallOnError _ => In "error" types
  | _ => True
  end.

(** The disposers one [connect] leaves on [unsubscribersRef.current]. *)
Definition cycleDisposers (options : UseWebSocketOptions) (base timer : nat)
  : list Disposer :=
  map (fun l => Unsub (l_id l)) (subscriptions options base)
  ++ [ClearInterval timer].

Definition oneCycle (options : UseWebSocketOptions) (st : Hook) : Prop :=
  unsubscribersRef st = [] \/
  exists base timer, unsubscribersRef st = cycleDisposers options base timer.

(** A hook that has never connected: nothing registered, nothing pending. *)
Definition idle (st : Hook) : Prop :=
  timers st = [] /\
  ws_listeners (wsRef st) = [] /\
  unsubscribersRef st = [] /\
  reconnectTimeoutRef st = None /\
  transportConnects st = 0%nat.

Definition isReconnect (e : Event) : bool :=
  match e with EvReconnect _ => true | _ => false end.

(** The fields other than the call log. *)
Definition sameButCalls (a b : Hook) : Prop :=
  isConnected a = isConnected b /\
  connectionId a = connectionId b /\
  lastMessage a = lastMessage b /\
  connectionState a = connectionState b /\
  unsubscribersRef a = unsubscribersRef b /\
  isConnectingRef a = isConnectingRef b /\
  reconnectTimeoutRef a = reconnectTimeoutRef b /\
  reconnectAttemptsRef a = reconnectAttemptsRef b /\
  shouldReconnectRef a = shouldReconnectRef b /\
  wsRef a = wsRef b /\
  timers a = timers b /\
  nextTimer a = nextTimer b.

(** What [unsubscribersRef.current] holds after any sequence of events:
    the disposers of at most one cycle, whose interval handle has been
    handed out already and names no timer but a poll interval. *)
Record bookkeeping (options : UseWebSocketOptions) (st : Hook) : Prop := {
  bk_cycle : oneCycle options st;
  bk_fresh :
    forall id, In (ClearInterval id) (unsubscribersRef st) ->
               (id < nextTimer st)%nat;
  bk_poll :
    forall t, In t (timers st) ->
              In (ClearInterval (t_id t)) (unsubscribersRef st) ->
              isPoll t = true
}.

(** [st'] has the timers of [st], or fewer, and possibly new ones. *)
Definition laterTimers (st st' : Hook) : Prop :=
  (nextTimer st <= nextTimer st')%nat /\
  forall t, In t (timers st') ->
            In t (timers st) \/ (nextTimer st <= t_id t)%nat.

(** ** The error boundaries *)

(** [WebSocketErrorBoundary] and [ChartErrorBoundary] are one class written
    twice with different texts.  A [ReactNode] is opaque here; all the code
    asks of one is whether it is truthy. *)
Module Boundary.

Inductive Component : Type :=
| WebSocketErrorBoundary
| ChartErrorBoundary.

(** A thrown [Error]; the boundaries read its [message]. *)
Record Error : Type := mkError {
  error_message : string
}.

Record State : Type := mkState {
  hasError : bool;
  error : option Error
}.

(** The panel the boundaries draw themselves, by its texts: the heading,
    the sentence under it, the error text if one is shown, and the label
    of the button that calls [handleRetry]. *)
Record Panel : Type := mkPanel {
  heading : string;
  sentence : string;
  detail : option string;
  button : string
}.

(** What [componentDidCatch] does. *)
Inductive Effect : Type :=
| ConsoleError (label : string) (e : Error)
| OnError (e : Error).

Section WithNodes.

Variable ReactNode : Type.
Variable truthy : ReactNode -> bool.

(** [Props]; [componentName] is [chartName] in the chart boundary. *)
Record Props : Type := mkProps {
  children : ReactNode;
  fallback : option ReactNode;
  onError : bool;
  componentName : option string
}.

Inductive View : Type :=
| Node (n : ReactNode)
| Default (p : Panel).

Definition className (c : Component) : string :=
  match c with
  | WebSocketErrorBoundary => "WebSocketErrorBoundary"
  | ChartErrorBoundary => "ChartErrorBoundary"
  end.

(** A name that is absent or empty is falsy. *)
Definition given (name : option string) : option string :=
  match name with
  | Some s => if (s =? "")%string then None else Some s
  | None => None
  end.

(** [this.props.componentName || "component"] *)
Definition nameOrDefault (c : Component) (name : option string) : string :=
  match given name with
  | Some s => s
  | None => match c with
            | WebSocketErrorBoundary => "component"
            | ChartErrorBoundary => "chart"
            end
  end.

(** The [constructor]. *)
Definition initialState : State :=
  {| hasError := false; error := None |}.

(** [getDerivedStateFromError]; React merges the result into the state,
    and it sets both fields. *)
Definition getDerivedStateFromError (e : Error) : State :=
  {| hasError := true; error := Some e |}.

(** [componentDidCatch] *)
Definition componentDidCatch (c : Component) (NODE_ENV : string)
    (props : Props) (e : Error) : list Effect :=
  (if (NODE_ENV =? "development")%string then
     [ConsoleError
        (String.append (className c)
           (String.append " caught an error in "
              (String.append (nameOrDefault c (componentName props)) ":")))
        e]
   else [])
  ++ (if onError props then [OnError e] else []).

(** [handleRetry] *)
Definition handleRetry (st : State) : State :=
  {| hasError := false; error := None |}.

Definition panel (c : Component) (NODE_ENV : string) (props : Props)
    (st : State) : Panel :=
  {| heading := match c with
                | WebSocketErrorBoundary => "Connection Error"
                | ChartErrorBoundary => "Chart Error"
                end;
     sentence :=
       match given (componentName props), c with
       | Some s, WebSocketErrorBoundary =>
           String.append "Unable to establish connection for " s
       | Some s, ChartErrorBoundary => String.append "Unable to render " s
       | None, WebSocketErrorBoundary =>
           "Unable to establish real-time connection"
       | None, ChartErrorBoundary => "Unable to render chart"
       end;
     detail :=
       if (NODE_ENV =? "development")%string then
         match error st with
         | Some e => Some (error_message e)
         | None => None
         end
       else None;
     button := match c with
               | WebSocketErrorBoundary => "Reconnect"
               | ChartErrorBoundary => "Retry"
               end |}.

(** [render] *)
Definition render (c : Component) (NODE_ENV : string) (props : Props)
    (st : State) : View :=
  if hasError st then
    match fallback props with
    | Some f => if truthy f then Node f else Default (panel c NODE_ENV props st)
    | None => Default (panel c NODE_ENV props st)
    end
  else Node (children props).

End WithNodes.

Arguments children {ReactNode} _.
Arguments fallback {ReactNode} _.
Arguments onError {ReactNode} _.
Arguments componentName {ReactNode} _.
Arguments mkProps {ReactNode} _ _ _ _.
Arguments Node {ReactNode} _.
Arguments Default {ReactNode} _.
Arguments componentDidCatch {ReactNode} _ _ _ _.
Arguments panel {ReactNode} _ _ _ _.
Arguments render {ReactNode} _ _ _ _ _.

End Boundary.

(** * Properties *)

(** ** How the building blocks act on the record *)

Lemma filter_all {A} (l : list A) : filter (fun _ => true) l = l.
Proof. induction l as [|a l IH]; cbn; [reflexivity | now rewrite IH]. Qed.

Lemma filter_filter {A} (p q : A -> bool) (l : list A) :
  filter p (filter q l) = filter (fun a => q a && p a) l.
Proof.
  induction l as [|a l IH]; cbn; [reflexivity|].
  destruct (q a); cbn; [destruct (p a)|]; now rewrite IH.
Qed.

Lemma fold_runDisposer (ds : list Disposer) (st : Hook) :
  fold_left runDisposer ds st =
  set_timers (filter (fun t => negb (disposedTimer ds t)) (timers st))
    (set_wsRef
       (with_listeners
          (filter (fun l => negb (disposedListener ds l))
                  (ws_listeners (wsRef st)))
          (ws_nextListener (wsRef st)) (wsRef st)) st).
Proof.
  revert st. induction ds as [|d ds IH]; intros st.
  - destruct st as [? ? ? ? ? ? ? ? ? ws ? ? ?]; destruct ws.
    unfold set_timers, set_wsRef, with_listeners; cbn.
    now rewrite !filter_all.
  - cbn [fold_left]. rewrite IH.
    destruct d as [id|id]; unfold runDisposer, ws_off, clearTimer,
      set_timers, set_wsRef, with_listeners; cbn;
      rewrite ?filter_filter;
      repeat first
        [ reflexivity
        | apply filter_ext; intros a; cbn;
          now destruct (Nat.eqb _ id)
        | progress f_equal ].
Qed.

Lemma fold_subscribe (ts : list WsMessageType) (st : Hook) :
  fold_left (fun st type => track (ws_on type HandleMessage st)) ts st =
  set_unsubscribersRef
    (unsubscribersRef st ++
     map (fun l => Unsub (l_id l))
         (typeListeners (ws_nextListener (wsRef st)) ts))
    (set_wsRef
       (with_listeners
          (ws_listeners (wsRef st) ++
           typeListeners (ws_nextListener (wsRef st)) ts)
          (ws_nextListener (wsRef st) + List.length ts) (wsRef st)) st).
Proof.
  revert st. induction ts as [|t ts IH]; intros st.
  - destruct st as [? ? ? ? ? ? ? ? ? ws ? ? ?]; destruct ws.
    unfold set_unsubscribersRef, set_wsRef, with_listeners; cbn.
    now rewrite !app_nil_r, Nat.add_0_r.
  - cbn [fold_left]. rewrite IH.
    unfold track, ws_on, ws_subscribe, push, set_unsubscribersRef, set_wsRef,
      with_listeners; cbn.
    now rewrite <- !app_assoc, Nat.add_succ_r.
Qed.

Lemma length_typeListeners base ts :
  List.length (typeListeners base ts) = List.length ts.
Proof.
  revert base; induction ts as [|t ts IH]; intros base; cbn;
    [reflexivity | now rewrite IH].
Qed.

(** The subscription step of [connect] registers [messageListeners]. *)
Lemma subscribe_messageTypes options (st : Hook) :
  match messageTypes options with
  | Some (t :: ts) =>
      fold_left (fun st type => track (ws_on type HandleMessage st))
                (t :: ts) st
  | _ => track (ws_onAny HandleMessage st)
  end =
  let ls := messageListeners options (ws_nextListener (wsRef st)) in
  set_unsubscribersRef
    (unsubscribersRef st ++ map (fun l => Unsub (l_id l)) ls)
    (set_wsRef
       (with_listeners (ws_listeners (wsRef st) ++ ls)
          (ws_nextListener (wsRef st) + List.length ls) (wsRef st)) st).
Proof.
  unfold messageListeners.
  destruct (messageTypes options) as [[|t ts]|].
  - cbn. now rewrite Nat.add_1_r.
  - rewrite fold_subscribe. cbv zeta. now rewrite length_typeListeners.
  - cbn. now rewrite Nat.add_1_r.
Qed.

Lemma Hook_ext (a b : Hook) :
  isConnected a = isConnected b ->
  connectionId a = connectionId b ->
  lastMessage a = lastMessage b ->
  connectionState a = connectionState b ->
  unsubscribersRef a = unsubscribersRef b ->
  isConnectingRef a = isConnectingRef b ->
  reconnectTimeoutRef a = reconnectTimeoutRef b ->
  reconnectAttemptsRef a = reconnectAttemptsRef b ->
  shouldReconnectRef a = shouldReconnectRef b ->
  wsRef a = wsRef b ->
  timers a = timers b ->
  nextTimer a = nextTimer b ->
  calls a = calls b ->
  a = b.
Proof. destruct a, b; cbn; intros; subst; reflexivity. Qed.

(** [connect], when it does connect, written out field by field. *)
Lemma connect_spec options captured (st : Hook) :
  isConnectingRef st = false ->
  ws_isConnected (wsRef st) = false ->
  let ds := unsubscribersRef st in
  let ws := wsRef st in
  let subs := subscriptions options (ws_nextListener ws) in
  connect options captured st =
  {| isConnected := isConnected st;
     connectionId := connectionId st;
     lastMessage := lastMessage st;
     connectionState := if ws_throws ws then DISCONNECTED else CONNECTING;
     unsubscribersRef :=
       map (fun l => Unsub (l_id l)) subs ++ [ClearInterval (nextTimer st)];
     isConnectingRef := negb (ws_throws ws);
     reconnectTimeoutRef := reconnectTimeoutRef st;
     reconnectAttemptsRef := reconnectAttemptsRef st;
     shouldReconnectRef := shouldReconnectRef st;
     wsRef :=
       with_listeners
         (filter (fun l => negb (disposedListener ds l)) (ws_listeners ws)
          ++ subs)
         (ws_nextListener ws + List.length subs) ws;
     timers :=
       filter (fun t => negb (disposedTimer ds t)) (timers st)
       ++ [mkTimer (nextTimer st) (PollInterval captured)];
     nextTimer := S (nextTimer st);
     calls :=
       calls st ++ CallWsConnect
         :: (if ws_throws ws then [CallConsoleError] else []) |}.
Proof.
  intros Hflag Hconn ds ws subs. unfold connect.
  rewrite Hflag, Hconn. unfold disposeAll.
  rewrite fold_runDisposer, subscribe_messageTypes.
  subst ds ws subs. unfold subscriptions.
  unfold track, ws_on, ws_onAny, ws_subscribe, ws_connect, setTimer, push.
  cbv zeta. fields.
  destruct (ws_throws (wsRef st)) eqn:Hthrows; apply Hook_ext; fields;
    rewrite ?Hthrows, ?map_app, ?length_app, <- ?app_assoc; cbn [map app];
    rewrite ?Nat.add_1_r, ?Nat.add_succ_r, ?Nat.add_0_r; try reflexivity.
Qed.

(** ** The invariant is kept by every operation *)

(** Dropping timers keeps the handles of the others distinct. *)
Lemma handles_distinct_filter (keep : Timer -> bool) (ts : list Timer) :
  NoDup (map t_id ts) -> NoDup (map t_id (filter keep ts)).
Proof.
  induction ts as [|t ts IH]; cbn; intros Hdistinct; [constructor|].
  inversion Hdistinct as [|? ? Hfresh Hrest]; subst.
  destruct (keep t); cbn; [constructor|]; auto.
  intros Hin. apply Hfresh. apply in_map_iff in Hin as (x & Hx & Hin).
  apply filter_In in Hin as [Hin _]. apply in_map_iff. eauto.
Qed.

Lemma NoDup_constant {A} (a : A) (l : list A) :
  NoDup l -> (forall x, In x l -> x = a) -> (List.length l <= 1)%nat.
Proof.
  intros Hnodup Hall. destruct l as [|x [|y l]]; cbn; try lia.
  exfalso. inversion Hnodup as [|? ? Hnotin _]; subst. apply Hnotin.
  rewrite (Hall x), (Hall y); cbn; auto.
Qed.

Lemma disposedListener_In ds l :
  In (Unsub (l_id l)) ds -> disposedListener ds l = true.
Proof.
  intros Hin. apply existsb_exists. exists (Unsub (l_id l)).
  split; [assumption | apply Nat.eqb_refl].
Qed.

Lemma disposedTimer_In ds t :
  In (ClearInterval (t_id t)) ds -> disposedTimer ds t = true.
Proof.
  intros Hin. apply existsb_exists. exists (ClearInterval (t_id t)).
  split; [assumption | apply Nat.eqb_refl].
Qed.

Lemma filter_nil {A} (p : A -> bool) (l : list A) :
  (forall a, In a l -> p a = false) -> filter p l = [].
Proof.
  induction l as [|a l IH]; cbn; intros H; [reflexivity|].
  rewrite (H a) by auto. apply IH. auto.
Qed.

Section Invariant.

Variable options : UseWebSocketOptions.

Lemma invariant_initial : invariant options (initial).
Proof.
  constructor; cbn; try tauto; try discriminate; try constructor. lia.
  pose proof (Z.le_max_l 0 (maxReconnectAttempts options)). lia.
Qed.

(** The invariant reads six things only. *)
Lemma invariant_frame (st st' : Hook) :
  invariant options st ->
  0 <= reconnectAttemptsRef st' <= Z.max 0 (maxReconnectAttempts options) ->
  timers st' = timers st ->
  nextTimer st' = nextTimer st ->
  reconnectTimeoutRef st' = reconnectTimeoutRef st ->
  unsubscribersRef st' = unsubscribersRef st ->
  ws_listeners (wsRef st') = ws_listeners (wsRef st) ->
  invariant options st'.
Proof.
  intros [] Ha Ht Hn Hr Hu Hl.
  constructor; rewrite ?Ht, ?Hn, ?Hr, ?Hu, ?Hl; assumption.
Qed.

Lemma tracked_all_disposed (st : Hook) :
  invariant options st ->
  filter (fun l => negb (disposedListener (unsubscribersRef st) l))
         (ws_listeners (wsRef st)) = [].
Proof.
  intros HI. apply filter_nil. intros l Hl.
  now rewrite disposedListener_In by (apply (inv_tracked _ _ HI); exact Hl).
Qed.

Lemma polls_all_disposed (st : Hook) (t : Timer) :
  invariant options st ->
  In t (filter (fun t => negb (disposedTimer (unsubscribersRef st) t))
               (timers st)) ->
  isPoll t = false.
Proof.
  intros HI Hin. apply filter_In in Hin as [Hin Hkeep].
  destruct (isPoll t) eqn:Hp; [|reflexivity].
  rewrite disposedTimer_In in Hkeep
    by (apply (inv_poll _ _ HI); assumption).
  discriminate.
Qed.

Lemma invariant_handleMessage m st :
  invariant options st ->
  invariant options (handleMessage options m st).
Proof.
  intros HI. unfold handleMessage, invoke.
  apply invariant_frame with (st := st); try assumption;
    repeat match goal with |- context [if ?b then _ else _] =>
             destruct b end; fields; try reflexivity;
    try apply (inv_attempts _ _ HI);
    pose proof (Z.le_max_l 0 (maxReconnectAttempts options)); lia.
Qed.

Lemma invariant_errorListener st :
  invariant options st ->
  invariant options (errorListener st).
Proof.
  intros HI. apply invariant_frame with (st := st); try assumption;
    try reflexivity. apply (inv_attempts _ _ HI).
Qed.

Lemma invariant_clearTimer id st :
  invariant options st ->
  invariant options (clearTimer id st).
Proof.
  intros HI. unfold clearTimer. constructor; fields.
  - apply (inv_attempts _ _ HI).
  - intros t Ht. apply filter_In in Ht as [Ht _].
    now apply (inv_timer_fresh _ _ HI).
  - apply handles_distinct_filter, (inv_timer_nodup _ _ HI).
  - intros t Ht. apply filter_In in Ht as [Ht _].
    now apply (inv_retry _ _ HI).
  - apply (inv_handle_fresh _ _ HI).
  - intros t Ht. apply filter_In in Ht as [Ht _].
    now apply (inv_handle_retry _ _ HI).
  - intros t Ht. apply filter_In in Ht as [Ht _].
    now apply (inv_poll _ _ HI).
  - apply (inv_tracked _ _ HI).
  - apply (inv_listeners _ _ HI).
Qed.


Lemma subscriptions_tracked base l :
  In l (subscriptions options base) ->
  In (Unsub (l_id l))
     (map (fun l => Unsub (l_id l)) (subscriptions options base)).
Proof. intros Hin. apply in_map_iff. eauto. Qed.

Lemma invariant_connect captured st :
  invariant options st ->
  invariant options (connect options captured st).
Proof.
  intros HI.
  destruct (isConnectingRef st) eqn:Hflag;
    [unfold connect; now rewrite Hflag|].
  destruct (ws_isConnected (wsRef st)) eqn:Hconn;
    [unfold connect; now rewrite Hflag, Hconn|].
  rewrite connect_spec by assumption. cbv zeta.
  rewrite (tracked_all_disposed _ HI).
  constructor; fields.
  - apply (inv_attempts _ _ HI).
  - intros t Ht. apply in_app_or in Ht as [Ht|[<-|[]]]; cbn; [|lia].
    apply filter_In in Ht as [Ht _].
    pose proof (inv_timer_fresh _ _ HI t Ht). lia.
  - rewrite map_app. cbn. apply NoDup_app.
    + apply handles_distinct_filter, (inv_timer_nodup _ _ HI).
    + repeat constructor. intros [].
    + intros x Hx [<-|[]]. apply in_map_iff in Hx as (t & Heq & Ht).
      apply filter_In in Ht as [Ht _].
      pose proof (inv_timer_fresh _ _ HI t Ht). lia.
  - intros t Ht Hr. apply in_app_or in Ht as [Ht|[<-|[]]]; [|discriminate].
    apply filter_In in Ht as [Ht _]. now apply (inv_retry _ _ HI).
  - intros id Hid. pose proof (inv_handle_fresh _ _ HI id Hid). lia.
  - intros t Ht Hid. apply in_app_or in Ht as [Ht|[<-|[]]].
    + apply filter_In in Ht as [Ht _].
      now apply (inv_handle_retry _ _ HI).
    + cbn in Hid. pose proof (inv_handle_fresh _ _ HI _ Hid). lia.
  - intros t Ht Hp. apply in_or_app.
    apply in_app_or in Ht as [Ht|[<-|[]]]; [|right; now left].
    rewrite (polls_all_disposed _ _ HI Ht) in Hp. discriminate.
  - cbn [app]. intros l Hl. apply in_or_app. left.
    now apply subscriptions_tracked.
  - right. now exists (ws_nextListener (wsRef st)).
Qed.

Lemma invariant_clearReconnectTimeout st :
  invariant options st ->
  let st' := clearReconnectTimeout st in
  invariant options st' /\
  reconnectTimeoutRef st' = None /\
  pendingRetries st' = [] /\
  reconnectAttemptsRef st' = reconnectAttemptsRef st /\
  shouldReconnectRef st' = shouldReconnectRef st /\
  unsubscribersRef st' = unsubscribersRef st /\
  nextTimer st' = nextTimer st.
Proof.
  intros HI. unfold clearReconnectTimeout.
  destruct (reconnectTimeoutRef st) as [id|] eqn:Href; cbv zeta.
  - assert (Hnone : forall t, In t (timers (clearTimer id st)) ->
                              isRetry t = false).
    { intros t Ht. unfold clearTimer in Ht. fields.
      apply filter_In in Ht as [Ht Hne].
      destruct (isRetry t) eqn:Hr; [|reflexivity].
      pose proof (inv_retry _ _ HI t Ht Hr) as Heq.
      rewrite Href in Heq. injection Heq as ->.
      now rewrite Nat.eqb_refl in Hne. }
    pose proof (invariant_clearTimer id st HI) as HI'.
    splits; try reflexivity.
    + destruct HI'. constructor; fields; try assumption;
        try discriminate.
      intros t Ht Hr. now rewrite (Hnone t Ht) in Hr.
    + unfold pendingRetries. fields. now apply filter_nil.
  - splits; try assumption; try reflexivity.
    unfold pendingRetries. apply filter_nil. intros t Ht.
    destruct (isRetry t) eqn:Hr; [|reflexivity].
    pose proof (inv_retry _ _ HI t Ht Hr) as Heq. congruence.
Qed.

Lemma invariant_scheduleReconnect captured random st :
  invariant options st ->
  invariant options (scheduleReconnect options captured random st).
Proof.
  intros HI. unfold scheduleReconnect.
  destruct (invariant_clearReconnectTimeout st HI)
    as (HI' & Href & Hnone & Hatt & _ & _ & _).
  cbv zeta in HI', Href, Hnone, Hatt.
  set (st1 := clearReconnectTimeout st) in *.
  clearbody st1.
  destruct (negb (shouldReconnectRef st1)
            || (maxReconnectAttempts options <=? reconnectAttemptsRef st1)%Z)
    eqn:Hdec.
  - apply invariant_frame with (st := st1); try assumption; try reflexivity.
    apply (inv_attempts _ _ HI').
  - apply orb_false_iff in Hdec as [_ Hlt]. apply Z.leb_gt in Hlt.
    unfold setTimer. cbv zeta. constructor; fields.
    + pose proof (inv_attempts _ _ HI'). lia.
    + intros t Ht. apply in_app_or in Ht as [Ht|[<-|[]]]; cbn; [|lia].
      pose proof (inv_timer_fresh _ _ HI' t Ht). lia.
    + rewrite map_app. cbn. apply NoDup_app.
      * apply (inv_timer_nodup _ _ HI').
      * repeat constructor. intros [].
      * intros x Hx [<-|[]]. apply in_map_iff in Hx as (t & Heq & Ht).
        pose proof (inv_timer_fresh _ _ HI' t Ht). lia.
    + intros t Ht Hr. apply in_app_or in Ht as [Ht|[<-|[]]];
        [|reflexivity].
      pose proof (inv_retry _ _ HI' t Ht Hr). congruence.
    + intros id [= <-]. lia.
    + intros t Ht [= Hid]. apply in_app_or in Ht as [Ht|[<-|[]]];
        [|reflexivity].
      pose proof (inv_timer_fresh _ _ HI' t Ht). lia.
    + intros t Ht Hp. apply in_app_or in Ht as [Ht|[<-|[]]];
        [|discriminate]. now apply (inv_poll _ _ HI').
    + apply (inv_tracked _ _ HI').
    + apply (inv_listeners _ _ HI').
Qed.

Lemma invariant_checkConnection captured random st :
  invariant options st ->
  invariant options (checkConnection options captured random st).
Proof.
  intros HI. unfold checkConnection.
  assert (Hset : forall b id s, invariant options s ->
            invariant options (set_connectionId id (set_isConnected b s))).
  { intros b id s Hs. apply invariant_frame with (st := s);
      try assumption; try reflexivity. apply (inv_attempts _ _ Hs). }
  assert (Hset' : forall c b s, invariant options s ->
            invariant options
              (set_isConnectingRef b (set_connectionState c s))).
  { intros c b s Hs. apply invariant_frame with (st := s);
      try assumption; try reflexivity. apply (inv_attempts _ _ Hs). }
  repeat match goal with |- context [if ?b then _ else _] =>
           destruct b end;
    auto using invariant_scheduleReconnect.
Qed.

Lemma invariant_retryFires captured st :
  invariant options st -> invariant options (retryFires options captured st).
Proof.
  intros HI. unfold retryFires. apply invariant_connect.
  apply invariant_frame with (st := st); try assumption; try reflexivity.
  apply (inv_attempts _ _ HI).
Qed.

(** What [disposeAll] leaves of a state that satisfies the invariant. *)
Lemma disposeAll_spec st :
  invariant options st ->
  unsubscribersRef (disposeAll st) = [] /\
  ws_listeners (wsRef (disposeAll st)) = [] /\
  pendingPolls (disposeAll st) = [] /\
  (forall t, In t (timers (disposeAll st)) -> In t (timers st)) /\
  NoDup (map t_id (timers (disposeAll st))) /\
  nextTimer (disposeAll st) = nextTimer st /\
  reconnectTimeoutRef (disposeAll st) = reconnectTimeoutRef st /\
  reconnectAttemptsRef (disposeAll st) = reconnectAttemptsRef st.
Proof.
  intros HI. unfold disposeAll, pendingPolls.
  rewrite fold_runDisposer. fields.
  rewrite (tracked_all_disposed _ HI). splits; try reflexivity.
  - apply filter_nil. intros t Ht. now apply (polls_all_disposed st).
  - intros t Ht. now apply filter_In in Ht as [Ht _].
  - apply handles_distinct_filter, (inv_timer_nodup _ _ HI).
Qed.

Lemma invariant_disposeAll st :
  invariant options st ->
  invariant options (disposeAll st).
Proof.
  intros HI.
  destruct (disposeAll_spec st HI)
    as (Hu & Hl & Hp & Ht & Hnd & Hn & Hr & Ha).
  constructor; rewrite ?Hu, ?Hl, ?Hn, ?Hr, ?Ha.
  - apply (inv_attempts _ _ HI).
  - intros t Hin. apply (inv_timer_fresh _ _ HI), Ht, Hin.
  - assumption.
  - intros t Hin. apply (inv_retry _ _ HI), Ht, Hin.
  - apply (inv_handle_fresh _ _ HI).
  - intros t Hin. apply (inv_handle_retry _ _ HI), Ht, Hin.
  - intros t Hin Hpoll. exfalso.
    assert (Hin' : In t (pendingPolls (disposeAll st)))
      by (apply filter_In; auto).
    now rewrite Hp in Hin'.
  - intros l [].
  - now left.
Qed.

Lemma invariant_disconnect st :
  invariant options st ->
  invariant options (disconnect options st).
Proof.
  intros HI. unfold disconnect.
  set (st0 := set_isConnectingRef false (set_shouldReconnectRef false st)).
  assert (HI0 : invariant options st0).
  { apply invariant_frame with (st := st); try assumption; try reflexivity.
    apply (inv_attempts _ _ HI). }
  destruct (invariant_clearReconnectTimeout st0 HI0) as (HI1 & _).
  cbv zeta in HI1. apply invariant_disposeAll in HI1.
  unfold invoke, ws_disconnect.
  eapply invariant_frame; [exact HI1|..];
    destruct (onDisconnect options); fields; try reflexivity.
  all: pose proof (Z.le_max_l 0 (maxReconnectAttempts options)); lia.
Qed.

Lemma invariant_reconnect captured st :
  invariant options st -> invariant options (reconnect options captured st).
Proof.
  intros HI. unfold reconnect, setTimer. cbv zeta.
  apply invariant_disconnect in HI.
  set (st1 := disconnect options st) in *. clearbody st1.
  constructor; fields.
  - pose proof (Z.le_max_l 0 (maxReconnectAttempts options)); lia.
  - intros t Ht. apply in_app_or in Ht as [Ht|[<-|[]]]; cbn; [|lia].
    pose proof (inv_timer_fresh _ _ HI t Ht). lia.
  - rewrite map_app. cbn. apply NoDup_app.
    + apply (inv_timer_nodup _ _ HI).
    + repeat constructor. intros [].
    + intros x Hx [<-|[]]. apply in_map_iff in Hx as (t & Heq & Ht).
      pose proof (inv_timer_fresh _ _ HI t Ht). lia.
  - intros t Ht Hr. apply in_app_or in Ht as [Ht|[<-|[]]];
      [|discriminate]. now apply (inv_retry _ _ HI).
  - intros id Hid. pose proof (inv_handle_fresh _ _ HI id Hid). lia.
  - intros t Ht Hid. apply in_app_or in Ht as [Ht|[<-|[]]].
    + now apply (inv_handle_retry _ _ HI).
    + cbn in Hid. pose proof (inv_handle_fresh _ _ HI _ Hid). lia.
  - intros t Ht Hp. apply in_app_or in Ht as [Ht|[<-|[]]];
      [|discriminate]. now apply (inv_poll _ _ HI).
  - apply (inv_tracked _ _ HI).
  - apply (inv_listeners _ _ HI).
Qed.

Lemma invariant_handlers m hs st :
  invariant options st ->
  invariant options (fold_left (runHandler options m) hs st).
Proof.
  revert st. induction hs as [|h hs IH]; intros st HI; cbn; [assumption|].
  apply IH. destruct h; cbn;
    auto using invariant_handleMessage, invariant_errorListener.
Qed.

Lemma invariant_step st e :
  invariant options st ->
  invariant options (step options st e).
Proof.
  intros HI. destruct e as [c| |c| | |m|id random|connected id throws]; cbn.
  - unfold effect. destruct (autoConnect options); [|assumption].
    apply invariant_connect.
    apply invariant_frame with (st := st); try assumption; try reflexivity.
    apply (inv_attempts _ _ HI).
  - unfold cleanup. apply invariant_disconnect.
    apply invariant_frame with (st := st); try assumption; try reflexivity.
    apply (inv_attempts _ _ HI).
  - now apply invariant_reconnect.
  - now apply invariant_disconnect.
  - apply invariant_frame with (st := st); try assumption; try reflexivity.
    apply (inv_attempts _ _ HI).
  - now apply invariant_handlers.
  - unfold timerFires. destruct (findTimer id st) as [t|]; [|assumption].
    destruct (t_kind t).
    + apply invariant_retryFires. now apply invariant_clearTimer.
    + apply invariant_connect. now apply invariant_clearTimer.
    + now apply invariant_checkConnection.
  - apply invariant_frame with (st := st); try assumption; try reflexivity.
    apply (inv_attempts _ _ HI).
Qed.

Lemma invariant_run es st :
  invariant options st ->
  invariant options (run options es st).
Proof.
  revert st. induction es as [|e es IH]; intros st HI; cbn; [assumption|].
  apply IH. now apply invariant_step.
Qed.

Lemma invariant_reachable st : reachable options st -> invariant options st.
Proof. intros [es ->]. apply invariant_run, invariant_initial. Qed.

End Invariant.

(** ** connect() while connecting or connected *)

Lemma transportConnects_connect options captured st :
  isConnectingRef st = false ->
  ws_isConnected (wsRef st) = false ->
  transportConnects (connect options captured st) = S (transportConnects st).
Proof.
  intros Hflag Hconn. unfold transportConnects.
  rewrite connect_spec by assumption. fields.
  rewrite filter_app, length_app.
  destruct (ws_throws (wsRef st)); cbn; lia.
Qed.

(** C1.  While the in-flight flag is set or the transport reports that it is
    connected, [connect()] returns the state as it found it and does not
    invoke the transport's [connect()].  Hence when a first [connect()] has
    left the hook in that condition, a second one right after it changes
    nothing, and the two calls together have invoked the transport's
    [connect()] exactly once. *)
Theorem connect_idempotent options captured (st : Hook) :
  isConnectingRef st = true \/ ws_isConnected (wsRef st) = true ->
  connect options captured st = st /\
  transportConnects (connect options captured st) = transportConnects st /\
  forall captured0 st0,
    st = connect options captured0 st0 ->
    isConnectingRef st0 = false ->
    ws_isConnected (wsRef st0) = false ->
    transportConnects (connect options captured st)
    = S (transportConnects st0).
Proof.
  intros H.
  assert (Hsame : connect options captured st = st).
  { unfold connect. destruct (isConnectingRef st); [reflexivity|].
    destruct H as [H|H]; [discriminate | now rewrite H]. }
  rewrite Hsame. splits; try reflexivity.
  intros captured0 st0 -> Hflag Hconn.
  now apply transportConnects_connect.
Qed.

Lemma connect_idempotent_witness :
  let st1 := connect default_options DISCONNECTED initial in
  connectionState st1 = CONNECTING /\
  connect default_options CONNECTING st1 = st1 /\
  transportConnects (connect default_options CONNECTING st1) = 1%nat.
Proof.
  intros st1.
  destruct (connect_idempotent default_options CONNECTING st1)
    as (Hsame & _ & Hone); [left; reflexivity|].
  splits; [reflexivity | exact Hsame |].
  apply (Hone DISCONNECTED initial); reflexivity.
Defined.

(** ** The connection acknowledgement *)

Lemma handleMessage_connected options m st :
  type m = "connected" ->
  let st' := handleMessage options m st in
  isConnected st' = true /\
  connectionId st' = connection_id m /\
  connectionState st' = CONNECTED /\
  isConnectingRef st' = false /\
  reconnectAttemptsRef st' = 0 /\
  lastMessage st' = Some m /\
  calls st' = calls st
              ++ (if onConnect options then [CallOnConnect] else [])
              ++ (if onMessage options then [CallOnMessage m] else []).
Proof.
  intros Htype. unfold handleMessage, invoke. rewrite Htype. cbn [String.eqb
    Ascii.eqb Bool.eqb]. cbv zeta.
  destruct (onConnect options), (onMessage options); fields;
    rewrite <- ?app_assoc, ?app_nil_r; splits; reflexivity.
Qed.

(** C6.  An acknowledgement dispatched while the hook is Connecting moves it
    to Connected, captures the connection id the message carries, sets the
    reconnect counter to exactly 0 whatever number of attempts it held,
    clears the in-flight flag and invokes the on-connect callback. *)
Theorem ack_while_connecting options (m : WsMessage) (st : Hook) (n : Z) :
  connectionState st = CONNECTING ->
  reconnectAttemptsRef st = n ->
  type m = "connected" ->
  onConnect options = true ->
  let st' := handleMessage options m st in
  connectionState st' = CONNECTED /\
  connectionId st' = connection_id m /\
  reconnectAttemptsRef st' = 0 /\
  isConnectingRef st' = false /\
  In CallOnConnect (calls st') /\
  List.length (filter (fun c => match c with CallOnConnect => true
                                        | _ => false end) (calls st'))
  = S (List.length (filter (fun c => match c with CallOnConnect => true
                                             | _ => false end) (calls st))).
Proof.
  intros _ _ Htype Hcb st'.
  destruct (handleMessage_connected options m st Htype)
    as (_ & Hid & Hstate & Hflag & Hzero & _ & Hcalls).
  fold st' in Hid, Hstate, Hflag, Hzero, Hcalls.
  rewrite Hcb in Hcalls. splits; try assumption.
  - rewrite Hcalls. apply in_or_app. right. now left.
  - rewrite Hcalls, filter_app, length_app.
    destruct (onMessage options); cbn; lia.
Qed.

Lemma ack_while_connecting_witness :
  let m := mkWsMessage "connected" (Some "c-17") None "" in
  let st := set_reconnectAttemptsRef 3
              (connect default_options DISCONNECTED initial) in
  let st' := handleMessage default_options m st in
  connectionState st' = CONNECTED /\
  connectionId st' = Some "c-17" /\
  reconnectAttemptsRef st' = 0.
Proof.
  intros m st st'.
  destruct (ack_while_connecting default_options m st 3)
    as (H1 & H2 & H3 & _); try reflexivity.
  splits; [exact H1 | exact H2 | exact H3].
Defined.

(** C10.  Dispatching a message tagged ['connected'] performs the whole
    connected transition whatever the current state is: [isConnected]
    becomes true, the carried [connection_id] is stored, the state machine
    is Connected, the in-flight flag is cleared, the reconnect counter is 0
    and [onConnect] is invoked (when one was supplied). *)
Theorem connected_message_from_any_state options (m : WsMessage)
    (st : Hook) (current : ConnectionState) :
  connectionState st = current ->
  type m = "connected" ->
  let st' := handleMessage options m st in
  isConnected st' = true /\
  connectionId st' = connection_id m /\
  connectionState st' = CONNECTED /\
  isConnectingRef st' = false /\
  reconnectAttemptsRef st' = 0 /\
  calls st' = calls st
              ++ (if onConnect options then [CallOnConnect] else [])
              ++ (if onMessage options then [CallOnMessage m] else []).
Proof.
  intros _ Htype st'.
  destruct (handleMessage_connected options m st Htype)
    as (H1 & H2 & H3 & H4 & H5 & _ & H6).
  splits; assumption.
Qed.

Lemma connected_message_from_any_state_witness :
  let m := mkWsMessage "connected" (Some "c-17") None "" in
  let st' := handleMessage default_options m initial in
  connectionState initial = DISCONNECTED /\
  isConnected st' = true /\
  connectionId st' = Some "c-17" /\
  connectionState st' = CONNECTED /\
  calls st' = [CallOnConnect; CallOnMessage m].
Proof.
  intros m st'.
  destruct (connected_message_from_any_state default_options m initial
              DISCONNECTED)
    as (H1 & H2 & H3 & _ & _ & H6); try reflexivity.
  splits; [reflexivity | exact H1 | exact H2 | exact H3 | exact H6].
Defined.

(** ** The retry decision *)

Lemma clearReconnectTimeout_frame st :
  let st' := clearReconnectTimeout st in
  reconnectTimeoutRef st' = None /\
  shouldReconnectRef st' = shouldReconnectRef st /\
  reconnectAttemptsRef st' = reconnectAttemptsRef st /\
  nextTimer st' = nextTimer st /\
  isConnectingRef st' = isConnectingRef st /\
  connectionState st' = connectionState st /\
  (forall t, In t (timers st') -> In t (timers st)).
Proof.
  unfold clearReconnectTimeout.
  destruct (reconnectTimeoutRef st) as [id|] eqn:Href; cbv zeta;
    splits; auto.
  unfold clearTimer. fields. intros t Ht.
  now apply filter_In in Ht as [Ht _].
Qed.

Lemma scheduleReconnect_armed options captured random st :
  shouldReconnectRef st = true ->
  reconnectAttemptsRef st < maxReconnectAttempts options ->
  let st' := scheduleReconnect options captured random st in
  let attempt := reconnectAttemptsRef st + 1 in
  connectionState st' = RECONNECTING /\
  reconnectAttemptsRef st' = attempt /\
  reconnectTimeoutRef st' = Some (nextTimer st) /\
  timers st' = timers (clearReconnectTimeout st)
               ++ [mkTimer (nextTimer st)
                     (RetryTimer captured (reconnectDelay attempt random))].
Proof.
  intros Hon Hlt. unfold scheduleReconnect.
  destruct (clearReconnectTimeout_frame st) as (_ & Hs & Ha & Hn & _).
  cbv zeta in *. rewrite Hs, Ha, Hon.
  apply Z.leb_gt in Hlt. rewrite Hlt. cbn [negb orb].
  unfold setTimer. fields. rewrite ?Ha, ?Hn. splits; reflexivity.
Qed.

Lemma scheduleReconnect_refused options captured random st :
  shouldReconnectRef st = false \/
  maxReconnectAttempts options <= reconnectAttemptsRef st ->
  let st' := scheduleReconnect options captured random st in
  connectionState st' = DISCONNECTED /\
  isConnectingRef st' = false /\
  reconnectAttemptsRef st' = reconnectAttemptsRef st /\
  reconnectTimeoutRef st' = None /\
  nextTimer st' = nextTimer st /\
  timers st' = timers (clearReconnectTimeout st).
Proof.
  intros Hno. unfold scheduleReconnect.
  destruct (clearReconnectTimeout_frame st) as (Hr & Hs & Ha & Hn & _).
  cbv zeta in *. rewrite Hs, Ha.
  assert (Hdec : negb (shouldReconnectRef st)
                 || (maxReconnectAttempts options
                     <=? reconnectAttemptsRef st)%Z = true).
  { destruct Hno as [->|Hle]; [reflexivity|].
    apply Z.leb_le in Hle. rewrite Hle. apply orb_true_r. }
  rewrite Hdec. fields. splits; auto.
Qed.

Lemma scheduleReconnect_cases options captured random st :
  let st' := scheduleReconnect options captured random st in
  (retryDecision options st /\ connectionState st' = RECONNECTING /\
   nextTimer st' = S (nextTimer st)) \/
  (~ retryDecision options st /\ connectionState st' = DISCONNECTED /\
   nextTimer st' = nextTimer st).
Proof.
  intros st'. subst st'. unfold retryDecision.
  destruct (shouldReconnectRef st) eqn:Hon.
  - destruct (Z.lt_ge_cases (reconnectAttemptsRef st)
                            (maxReconnectAttempts options)) as [Hlt|Hge].
    + left. destruct (scheduleReconnect_armed options captured random st
                        Hon Hlt) as (Hs & _ & _ & Ht).
      splits; auto. unfold scheduleReconnect, setTimer.
      destruct (clearReconnectTimeout_frame st) as (_ & Hs' & Ha & Hn & _).
      cbv zeta in *. rewrite Hs', Ha, Hon.
      apply Z.leb_gt in Hlt. rewrite Hlt. cbn [negb orb]. fields.
      now rewrite Hn.
    + right. destruct (scheduleReconnect_refused options captured random
                         st (or_intror Hge)) as (Hs & _ & _ & _ & Hn & _).
      splits; auto. intros [_ Hlt]. lia.
  - right. destruct (scheduleReconnect_refused options captured random
                       st (or_introl Hon)) as (Hs & _ & _ & _ & Hn & _).
    splits; auto. intros [Hon' _]. discriminate.
Qed.







(** ** Rounding to doubles *)

Lemma exponent_lower n d :
  0 < n -> 0 < d -> 0 <= exponent n d -> d * 2 ^ exponent n d <= n.
Proof.
  intros Hn Hd. unfold exponent.
  set (e0 := Z.log2 n - Z.log2 d).
  destruct (if 0 <=? e0 then d * 2 ^ e0 <=? n else d <=? n * 2 ^ (- e0))%Z
    eqn:Htest; intros He.
  - apply Z.leb_le in He as He'. rewrite He' in Htest.
    now apply Z.leb_le in Htest.
  - pose proof (Z.log2_spec n Hn) as [Hlow _].
    pose proof (Z.log2_spec d Hd) as [_ Hhigh].
    pose proof (Z.log2_nonneg d) as Hld.
    replace (Z.log2 n) with (Z.log2 d + 1 + (e0 - 1)) in Hlow
      by (subst e0; lia).
    rewrite Z.pow_add_r in Hlow by lia.
    rewrite <- Z.add_1_r in Hhigh.
    assert (0 < 2 ^ (e0 - 1)) by (apply Z.pow_pos_nonneg; lia).
    nia.
Qed.

Lemma nearestEven_between n d :
  0 < d ->
  n / d <= nearestEven n d <= n / d + 1 /\
  (n mod d = 0 -> nearestEven n d = n / d) /\
  (nearestEven n d = n / d + 1 -> d <= 2 * (n mod d)).
Proof.
  intros Hd. unfold nearestEven.
  pose proof (Z.mod_pos_bound n d Hd) as Hr.
  destruct (2 * (n mod d) ?= d)%Z eqn:Hc.
  - apply Z.compare_eq in Hc. destruct (Z.even (n / d));
      repeat split; intros; lia.
  - apply Z.compare_lt_iff in Hc. repeat split; intros; lia.
  - apply Z.compare_gt_iff in Hc. repeat split; intros; lia.
Qed.

Lemma nearestEven_lower n d c : 0 < d -> c * d <= n -> c <= nearestEven n d.
Proof.
  intros Hd Hc. destruct (nearestEven_between n d Hd) as ((Hlow & _) & _).
  assert (c <= n / d) by (apply Z.div_le_lower_bound; lia). lia.
Qed.

Lemma nearestEven_upper n d c : 0 < d -> n <= c * d -> nearestEven n d <= c.
Proof.
  intros Hd Hc.
  destruct (nearestEven_between n d Hd) as ((_ & Hhigh) & Hexact & Hup).
  pose proof (Z.div_mod n d ltac:(lia)) as Hdm.
  pose proof (Z.mod_pos_bound n d Hd) as Hr.
  destruct (Z.eq_dec (n mod d) 0) as [H0|H0].
  - rewrite (Hexact H0). apply Z.div_le_upper_bound; lia.
  - assert (Hlt : d * (n / d) < d * c) by lia.
    apply Z.mul_lt_mono_pos_l in Hlt; lia.
Qed.

Lemma nearestEven_below n d c :
  0 < d -> 2 * n < (2 * c - 1) * d -> nearestEven n d <= c - 1.
Proof.
  intros Hd Hc.
  destruct (nearestEven_between n d Hd) as ((_ & Hhigh) & _ & Hup).
  pose proof (Z.div_mod n d ltac:(lia)) as Hdm.
  pose proof (Z.mod_pos_bound n d Hd) as Hr.
  assert (Hlt : d * (2 * (n / d)) < d * (2 * c - 1)) by lia.
  apply Z.mul_lt_mono_pos_l in Hlt; [|lia].
  destruct (Z.eq_dec (nearestEven n d) (n / d + 1)) as [Heq|Hne]; [|lia].
  specialize (Hup Heq).
  assert (Hlt' : d * (2 * (n / d) + 1) < d * (2 * c - 1)) by lia.
  apply Z.mul_lt_mono_pos_l in Hlt'; lia.
Qed.


Lemma double_ge (lo : Z) (x : Q) :
  0 <= lo < 2 ^ 53 ->
  (inject_Z lo <= x)%Q -> (inject_Z lo <= double x)%Q.
Proof.
  intros [Hlo Hbig] Hx. destruct x as [n p].
  unfold Qle in Hx. cbn [Qnum Qden inject_Z] in Hx.
  unfold double. cbn [Qnum Qden].
  destruct (Z.eqb_spec n 0) as [->|Hn0].
  { unfold Qle. cbn. lia. }
  assert (Hn : 0 < n) by lia.
  rewrite (Z.abs_eq n) by lia.
  destruct (Z.ltb_spec n 0) as [?|_]; [lia|].
  set (d := Zpos p) in *. assert (Hd : 0 < d) by (subst d; lia).
  set (e := exponent n d).
  pose proof (exponent_lower n d Hn Hd) as Hlower. fold e in Hlower.
  set (k := Z.max (e - 52) (-1074)).
  destruct (Z.leb_spec 0 k) as [Hk|Hk].
  - rewrite <- Zle_Qle.
    destruct (Z.eq_dec k 0) as [Hk0|Hk0].
    + rewrite Hk0. change (2 ^ 0) with 1. rewrite !Z.mul_1_r.
      apply nearestEven_lower; lia.
    + assert (He : e = k + 52) by lia.
      assert (Hpk : 2 <= 2 ^ k).
      { change 2 with (2 ^ 1) at 1. apply Z.pow_le_mono_r; lia. }
      specialize (Hlower ltac:(lia)). rewrite He, Z.pow_add_r in Hlower
        by lia.
      assert (Hm : 2 ^ 52 <= nearestEven n (d * 2 ^ k))
        by (apply nearestEven_lower; nia).
      change (2 ^ 53) with 9007199254740992 in Hbig.
      change (2 ^ 52) with 4503599627370496 in Hm. nia.
  - rewrite Qred_correct. unfold Qle. cbn [Qnum Qden inject_Z].
    assert (Hp : 0 < 2 ^ (- k)) by (apply Z.pow_pos_nonneg; lia).
    rewrite Z2Pos.id by assumption. rewrite Z.mul_1_r.
    apply nearestEven_lower; [assumption | nia].
Qed.

Lemma double_le (hi : Z) (x : Q) :
  hi < 2 ^ 53 ->
  (0 <= x)%Q -> (x <= inject_Z hi)%Q -> (double x <= inject_Z hi)%Q.
Proof.
  intros Hbig H0 Hx. destruct x as [n p].
  unfold Qle in Hx, H0. cbn [Qnum Qden inject_Z] in Hx, H0.
  unfold double. cbn [Qnum Qden].
  destruct (Z.eqb_spec n 0) as [->|Hn0].
  { unfold Qle. cbn. lia. }
  assert (Hn : 0 < n) by lia.
  rewrite (Z.abs_eq n) by lia.
  destruct (Z.ltb_spec n 0) as [?|_]; [lia|].
  set (d := Zpos p) in *. assert (Hd : 0 < d) by (subst d; lia).
  set (e := exponent n d).
  pose proof (exponent_lower n d Hn Hd) as Hlower. fold e in Hlower.
  set (k := Z.max (e - 52) (-1074)).
  destruct (Z.leb_spec 0 k) as [Hk|Hk].
  - rewrite <- Zle_Qle.
    destruct (Z.eq_dec k 0) as [Hk0|Hk0].
    + rewrite Hk0. change (2 ^ 0) with 1. rewrite !Z.mul_1_r.
      apply nearestEven_upper; lia.
    + exfalso. assert (He : e = k + 52) by lia.
      assert (Hpk : 2 <= 2 ^ k).
      { change 2 with (2 ^ 1) at 1. apply Z.pow_le_mono_r; lia. }
      specialize (Hlower ltac:(lia)). rewrite He, Z.pow_add_r in Hlower
        by lia.
      change (2 ^ 53) with 9007199254740992 in Hbig.
      change (2 ^ 52) with 4503599627370496 in Hlower. nia.
  - rewrite Qred_correct. unfold Qle. cbn [Qnum Qden inject_Z].
    assert (Hp : 0 < 2 ^ (- k)) by (apply Z.pow_pos_nonneg; lia).
    rewrite Z2Pos.id by assumption. rewrite Z.mul_1_r.
    apply nearestEven_upper; [assumption | nia].
Qed.

(** below 1000 minus half a step of the doubles there, the result is
    below 1000 *)
Lemma double_below_1000 (x : Q) :
  (0 <= x)%Q ->
  (x <= (1000 * (2 ^ 53 - 1)) # (2 ^ 53))%Q ->
  (double x < 1000)%Q.
Proof.
  intros H0 Hx. destruct x as [n p].
  unfold Qle in Hx, H0. cbn [Qnum Qden inject_Z] in Hx, H0.
  unfold double. cbn [Qnum Qden].
  destruct (Z.eqb_spec n 0) as [->|Hn0]; [reflexivity|].
  assert (Hn : 0 < n) by lia.
  rewrite (Z.abs_eq n) by lia.
  destruct (Z.ltb_spec n 0) as [?|_]; [lia|].
  set (d := Zpos p) in *. assert (Hd : 0 < d) by (subst d; lia).
  set (e := exponent n d).
  pose proof (exponent_lower n d Hn Hd) as Hlower. fold e in Hlower.
  change (Z.pos (2 ^ 53)) with 9007199254740992 in Hx.
  change (1000 * (2 ^ 53 - 1)) with 9007199254740991000 in Hx.
  assert (He : e <= 9).
  { destruct (Z.le_gt_cases e 9) as [?|Hgt]; [assumption|exfalso].
    specialize (Hlower ltac:(lia)).
    assert (Hp : 2 ^ 10 <= 2 ^ e) by (apply Z.pow_le_mono_r; lia).
    change (2 ^ 10) with 1024 in Hp. nia. }
  set (k := Z.max (e - 52) (-1074)).
  assert (Hk : k <= -43) by lia.
  destruct (Z.leb_spec 0 k) as [?|_]; [lia|].
  rewrite Qred_correct. unfold Qlt. cbn [Qnum Qden inject_Z].
  set (A := 2 ^ (- k)).
  assert (HA : 2 ^ 43 <= A) by (apply Z.pow_le_mono_r; lia).
  change (2 ^ 43) with 8796093022208 in HA.
  rewrite Z2Pos.id by lia. rewrite Z.mul_1_r.
  assert (Hm : nearestEven (n * A) d <= 1000 * A - 1).
  { apply nearestEven_below; [assumption|].
    assert (H1 : n * 9007199254740992 * A
                 <= 9007199254740991000 * d * A)
      by (apply Z.mul_le_mono_nonneg_r; lia).
    assert (H2 : 8796093022208 * d <= A * d)
      by (apply Z.mul_le_mono_nonneg_r; lia).
    lia. }
  lia.
Qed.

(** The rounding at work: 0.1 is not a double; an integer above [2^53]
    that lies halfway between two doubles goes to the one with the even
    significand; half the smallest subnormal goes to 0; and past the
    largest double lies [Infinity]. *)
Lemma double_examples :
  double (1 # 10) = (3602879701896397 # 36028797018963968)%Q /\
  double (inject_Z (2 ^ 53 + 1)) = inject_Z (2 ^ 53) /\
  double (inject_Z (2 ^ 53 + 3)) = inject_Z (2 ^ 53 + 4) /\
  double (1 # 2 ^ 1075) = 0%Q /\
  double (3 # 2 ^ 1075) = (1 # 2 ^ 1073)%Q /\
  round (inject_Z (2 ^ 1024 - 2 ^ 970 - 1))
  = Finite (inject_Z (2 ^ 1024 - 2 ^ 971)) /\
  round (inject_Z (2 ^ 1024 - 2 ^ 970)) = Infinity /\
  Math_pow2 1024 = Infinity.
Proof. repeat split; vm_compute; reflexivity. Qed.

(** ** The retry delay *)

Lemma double_nonneg (x : Q) : (0 <= x)%Q -> (0 <= double x)%Q.
Proof. intros H. now apply (double_ge 0). Qed.

Lemma overflows_false (x : Q) :
  (0 <= x)%Q -> (x <= 31000)%Q -> overflows x = false.
Proof.
  intros H0 H1. unfold overflows.
  destruct (Qle_bool _ _) eqn:Hb; [exfalso|reflexivity].
  apply Qle_bool_iff in Hb. rewrite (Qabs_pos x H0) in Hb.
  assert (Hbig : (31000 < inject_Z (2 ^ 1024 - 2 ^ 970))%Q)
    by (vm_compute; reflexivity).
  lra.
Qed.

Lemma round_small (x : Q) :
  (0 <= x)%Q -> (x <= 31000)%Q -> round x = Finite (double x).
Proof. intros H0 H1. unfold round. now rewrite overflows_false. Qed.

Lemma Qmin_above (x : Q) : (30000 < x)%Q -> Qmin x 30000 = 30000%Q.
Proof.
  intros H. unfold Qmin, GenericMinMax.gmin.
  apply Qgt_alt in H. now rewrite H.
Qed.

Lemma power_large (a : Z) : 6 <= a -> (inject_Z 32 <= 2 ^ (a - 1))%Q.
Proof.
  intros Ha. change 2%Q with (inject_Z 2).
  rewrite <- Zpower_Qpower by lia. rewrite <- Zle_Qle.
  change 32 with (2 ^ 5). apply Z.pow_le_mono_r; lia.
Qed.

Lemma exponential_large (a : Z) :
  6 <= a -> (32000 <= 1000 * 2 ^ (a - 1))%Q.
Proof.
  intros Ha. pose proof (power_large a Ha) as H.
  change (inject_Z 32) with 32%Q in H. lra.
Qed.

Lemma exponential_value (a : Z) :
  1 <= a <= 5 ->
  exists lo : Z,
    1000 <= lo <= 16000 /\
    (1000 * 2 ^ (a - 1))%Q = inject_Z lo /\
    mulNumber (Finite 1000) (Math_pow2 (a - 1)) = Finite (inject_Z lo).
Proof.
  intros Ha.
  assert (Hcases : a = 1 \/ a = 2 \/ a = 3 \/ a = 4 \/ a = 5) by lia.
  destruct Hcases as [->|[->|[->|[->| ->]]]];
    [exists 1000 | exists 2000 | exists 4000 | exists 8000 | exists 16000];
    (split; [lia | split; vm_compute; reflexivity]).
Qed.

(** The jitter: [Math.random() * 1000] for a value in [[0, 1)]. *)
Lemma jitter_bounds (random : Q) :
  (0 <= random)%Q -> (random < 1)%Q ->
  let jitter := double (random * 1000) in
  mulNumber (Finite random) (Finite 1000) = Finite jitter /\
  (0 <= jitter)%Q /\ (jitter <= 1000)%Q /\
  ((random <= 1 - (1 # 2 ^ 53))%Q -> (jitter < 1000)%Q).
Proof.
  intros H0 H1 jitter. subst jitter.
  assert (Hp0 : (0 <= random * 1000)%Q) by nra.
  assert (Hp1 : (random * 1000 <= 1000)%Q) by nra.
  repeat match goal with |- _ /\ _ => split end.
  - cbn [mulNumber]. apply round_small; lra.
  - now apply double_nonneg.
  - apply (double_le 1000); [reflexivity | assumption | assumption].
  - intros Hmax. apply double_below_1000; [assumption|].
    assert (Heq : ((1000 * (2 ^ 53 - 1)) # (2 ^ 53)
                   == 1000 * (1 - (1 # 2 ^ 53)))%Q)
      by (vm_compute; reflexivity).
    rewrite Heq. nra.
Qed.

(** From the sixth attempt on the delay is the cap. *)
Lemma reconnectDelay_capped (a : Z) (random : Q) :
  6 <= a -> (0 <= random)%Q -> reconnectDelay a random = 30000%Q.
Proof.
  intros Ha H0. unfold reconnectDelay, Math_pow2.
  pose proof (power_large a Ha) as Hp.
  unfold round at 1. destruct (overflows (2 ^ (a - 1))); [reflexivity|].
  pose proof (double_ge 32 _ ltac:(split; [lia|reflexivity]) Hp) as Hd.
  change (inject_Z 32) with 32%Q in Hd.
  set (p := double (2 ^ (a - 1))) in *. cbn [mulNumber].
  unfold round at 1. destruct (overflows (1000 * p)); [reflexivity|].
  assert (He : (inject_Z 32000 <= 1000 * p)%Q)
    by (change (inject_Z 32000) with 32000%Q; lra).
  apply (double_ge 32000) in He; [|split; [lia|reflexivity]].
  change (inject_Z 32000) with 32000%Q in He.
  set (e := double (1000 * p)) in *.
  unfold round at 1. destruct (overflows (random * 1000)); [reflexivity|].
  assert (Hj : (0 <= double (random * 1000))%Q)
    by (apply double_nonneg; nra).
  set (j := double (random * 1000)) in *. cbn [addNumber].
  unfold round. destruct (overflows (e + j)); [reflexivity|].
  assert (Hs : (inject_Z 32000 <= e + j)%Q)
    by (change (inject_Z 32000) with 32000%Q; lra).
  apply (double_ge 32000) in Hs; [|split; [lia|reflexivity]].
  change (inject_Z 32000) with 32000%Q in Hs.
  cbn [Math_min]. apply Qmin_above. lra.
Qed.

Lemma reconnectDelay_bounds (a : Z) (random : Q) :
  1 <= a -> (0 <= random)%Q -> (random < 1)%Q ->
  let exponentialDelay := (1000 * 2 ^ (a - 1))%Q in
  let jitter := double (random * 1000) in
  let delay := reconnectDelay a random in
  (a <= 5 -> delay = Qmin (double (exponentialDelay + jitter)) 30000) /\
  (6 <= a -> (delay == Qmin (exponentialDelay + jitter) 30000)%Q) /\
  (Qmin exponentialDelay 30000 <= delay)%Q /\
  (delay <= Qmin (exponentialDelay + 1000) 30000)%Q /\
  (a <= 5 -> (exponentialDelay <= delay)%Q).
Proof.
  intros Ha H0 H1 E j delay.
  destruct (jitter_bounds random H0 H1) as (Hmul & Hj0 & Hj1 & _).
  cbv zeta in Hmul, Hj0, Hj1. fold j in Hmul, Hj0, Hj1.
  destruct (Z.le_gt_cases a 5) as [Hsmall|Hlarge].
  - destruct (exponential_value a ltac:(lia)) as (lo & Hlo & HE & HEn).
    assert (Hdelay : delay = Qmin (double (E + j)) 30000).
    { subst delay E. unfold reconnectDelay. rewrite HEn, Hmul, HE.
      cbn [addNumber]. rewrite round_small; [reflexivity| |].
      - rewrite <- (Qplus_0_r 0). apply Qplus_le_compat; [|assumption].
        change 0%Q with (inject_Z 0). rewrite <- Zle_Qle. lia.
      - apply Qle_trans with (inject_Z 16000 + 1000)%Q;
          [|vm_compute; discriminate].
        apply Qplus_le_compat; [|assumption]. rewrite <- Zle_Qle. lia. }
    assert (Hlow : (E <= double (E + j))%Q).
    { subst E. rewrite HE. apply double_ge.
      - split; [lia|]. apply Z.le_lt_trans with 16000; [lia|reflexivity].
      - rewrite <- (Qplus_0_r (inject_Z lo)) at 1.
        apply Qplus_le_compat; [apply Qle_refl | assumption]. }
    assert (Hhigh : (double (E + j) <= E + 1000)%Q).
    { subst E. rewrite HE.
      apply Qle_trans with (inject_Z (lo + 1000));
        [|rewrite inject_Z_plus; apply Qle_refl].
      apply double_le.
      - apply Z.le_lt_trans with 17000; [lia|reflexivity].
      - rewrite <- (Qplus_0_r 0). apply Qplus_le_compat; [|assumption].
        change 0%Q with (inject_Z 0). rewrite <- Zle_Qle. lia.
      - rewrite inject_Z_plus. apply Qplus_le_compat;
          [apply Qle_refl | assumption]. }
    assert (HE16 : (E <= 16000)%Q).
    { subst E. rewrite HE. change 16000%Q with (inject_Z 16000).
      rewrite <- Zle_Qle. lia. }
    repeat match goal with |- _ /\ _ => split end.
    + intros _. exact Hdelay.
    + intros. lia.
    + rewrite Hdelay. apply Q.min_le_compat_r. exact Hlow.
    + rewrite Hdelay. apply Q.min_le_compat_r. exact Hhigh.
    + intros _. rewrite Hdelay. apply Q.min_glb; [exact Hlow | lra].
  - pose proof (reconnectDelay_capped a random ltac:(lia) H0) as Hcap.
    pose proof (exponential_large a ltac:(lia)) as HE. fold E in HE.
    fold delay in Hcap.
    repeat match goal with |- _ /\ _ => split end.
    + intros. lia.
    + intros _. rewrite Hcap. symmetry. apply Q.min_r. lra.
    + rewrite Hcap. apply Q.le_min_r.
    + rewrite Hcap. apply Q.min_glb; lra.
    + intros. lia.
Qed.

(** C2 fails as stated: with six attempts allowed, [scheduleReconnect]
    called after five attempts counts the sixth and arms its timer with the
    cap, 30000 ms, which is below [baseDelay * 2^5] = 32000 ms. *)
Lemma delay_below_exponential :
  let st := set_reconnectAttemptsRef 5 initial in
  let st' := scheduleReconnect six_attempts CONNECTING 0 st in
  let a := reconnectAttemptsRef st' in
  a = 6 /\ 1 <= a <= maxReconnectAttempts six_attempts /\
  timers st' = [mkTimer 1 (RetryTimer CONNECTING (reconnectDelay a 0))] /\
  (reconnectDelay a 0 == 30000)%Q /\
  ~ (1000 * 2 ^ (a - 1) <= reconnectDelay a 0)%Q.
Proof.
  cbv zeta. splits; vm_compute; try reflexivity; try discriminate.
  intros H. now apply H.
Qed.

(** The sum of the exponential delay and the jitter is a sum of doubles.
    With [Math.random()] at [1 - 2^-52] the jitter is [1000 - 2^-42], below
    1000, and for the second attempt [2000 + jitter] lies halfway between
    two doubles and rounds to 3000: the timer is armed with
    [baseDelay * 2^1 + jitterMax] itself. *)
Lemma delay_reaches_upper_end :
  let random := (1 - (1 # 2 ^ 52))%Q in
  let st := set_reconnectAttemptsRef 1 initial in
  let st' := scheduleReconnect default_options CONNECTING random st in
  let jitter := double (random * 1000) in
  (0 <= random)%Q /\ (random < 1)%Q /\
  reconnectAttemptsRef st' = 2 /\
  (jitter == 1000 - (1 # 2 ^ 42))%Q /\ (jitter < 1000)%Q /\
  timers st' = [mkTimer 1 (RetryTimer CONNECTING 3000)] /\
  ~ (exists j : Q, (0 <= j)%Q /\ (j < 1000)%Q /\
                   (3000 == Qmin (1000 * 2 ^ (2 - 1) + j) 30000)%Q).
Proof.
  cbv zeta. splits.
  - vm_compute. discriminate.
  - vm_compute. reflexivity.
  - vm_compute. reflexivity.
  - vm_compute. reflexivity.
  - vm_compute. reflexivity.
  - vm_compute. reflexivity.
  - intros (j & Hj0 & Hj1 & Heq).
    change (1000 * 2 ^ (2 - 1))%Q with 2000%Q in Heq.
    rewrite Q.min_l in Heq by lra. lra.
Qed.

(** C2, amended.  When a retry is scheduled for attempt [a], the jitter is
    the double [Math.random() * 1000], between 0 and 1000 and below 1000
    for every value of [Math.random()] up to the largest double below 1;
    the timer is armed with [min(1000 * 2^(a-1) + jitter, 30000)], the sum
    being the sum of doubles (for the attempts up to the fifth; from the
    sixth on the cap is reached already in exact arithmetic).  The delay
    therefore lies between [min(1000 * 2^(a-1), 30000)] and
    [min(1000 * 2^(a-1) + 1000, 30000)], both ends included; it is at least
    [1000 * 2^(a-1)] itself for the attempts up to the fifth, which are all
    the attempts of the default configuration. *)
Theorem retry_delay_bounds options captured (random : Q) (st : Hook) :
  (0 <= random)%Q -> (random < 1)%Q ->
  shouldReconnectRef st = true ->
  0 <= reconnectAttemptsRef st < maxReconnectAttempts options ->
  let st' := scheduleReconnect options captured random st in
  let a := reconnectAttemptsRef st' in
  let exponentialDelay := (1000 * 2 ^ (a - 1))%Q in
  exists delay jitter : Q,
    1 <= a <= maxReconnectAttempts options /\
    In (mkTimer (nextTimer st) (RetryTimer captured delay)) (timers st') /\
    reconnectTimeoutRef st' = Some (nextTimer st) /\
    jitter = double (random * 1000) /\
    (0 <= jitter)%Q /\ (jitter <= 1000)%Q /\
    ((random <= 1 - (1 # 2 ^ 53))%Q -> (jitter < 1000)%Q) /\
    (a <= 5 -> delay = Qmin (double (exponentialDelay + jitter)) 30000) /\
    (6 <= a -> (delay == Qmin (exponentialDelay + jitter) 30000)%Q) /\
    (Qmin exponentialDelay 30000 <= delay)%Q /\
    (delay <= Qmin (exponentialDelay + 1000) 30000)%Q /\
    (a <= 5 -> (exponentialDelay <= delay)%Q).
Proof.
  intros H0 H1 Hon [Hge Hlt].
  destruct (scheduleReconnect_armed options captured random st Hon Hlt)
    as (_ & Ha & Href & Ht).
  cbv zeta in *. rewrite Ha.
  set (a := reconnectAttemptsRef st + 1) in *.
  destruct (reconnectDelay_bounds a random ltac:(lia) H0 H1)
    as (Hsmall & Hlarge & Hlo & Hhi & Hexp).
  destruct (jitter_bounds random H0 H1) as (_ & Hj0 & Hj1 & Hj2).
  cbv zeta in *.
  exists (reconnectDelay a random), (double (random * 1000)).
  splits; try assumption; try lia; try reflexivity.
  rewrite Ht. apply in_or_app. right. now left.
Qed.

Lemma retry_delay_bounds_witness :
  let st' := scheduleReconnect default_options CONNECTING (1 # 2) initial in
  exists delay : Q,
    In (mkTimer 1 (RetryTimer CONNECTING delay)) (timers st') /\
    (1000 <= delay)%Q /\ (delay <= 2000)%Q.
Proof.
  intros st'.
  destruct (retry_delay_bounds default_options CONNECTING (1 # 2) initial)
    as (delay & jitter & _ & Hin & _ & _ & _ & _ & _ & _ & _ & Hlo & Hhi
        & _);
    try reflexivity; try (vm_compute; discriminate).
  { split; [discriminate | reflexivity]. }
  exists delay. splits; [exact Hin | exact Hlo | exact Hhi].
Defined.

(** ** The reconnect counter and the retry timer *)

Lemma timers_connect options captured st t :
  In t (timers (connect options captured st)) ->
  In t (timers st) \/ isPoll t = true.
Proof.
  destruct (isConnectingRef st) eqn:Hflag;
    [unfold connect; rewrite Hflag; auto|].
  destruct (ws_isConnected (wsRef st)) eqn:Hconn;
    [unfold connect; rewrite Hflag, Hconn; auto|].
  rewrite connect_spec by assumption. fields. intros Ht.
  apply in_app_or in Ht as [Ht|[<-|[]]]; [left|right; reflexivity].
  now apply filter_In in Ht as [Ht _].
Qed.


Lemma timers_handlers options m hs st :
  timers (fold_left (runHandler options m) hs st) = timers st.
Proof.
  revert st. induction hs as [|h hs IH]; intros st; cbn; [reflexivity|].
  rewrite IH. destruct h; cbn; [|reflexivity].
  unfold handleMessage, invoke.
  repeat match goal with |- context [if ?b then _ else _] =>
           destruct b end; reflexivity.
Qed.

Lemma pendingRetries_In st t :
  In t (pendingRetries st) <-> In t (timers st) /\ isRetry t = true.
Proof. apply filter_In. Qed.

Lemma isRetry_not_poll t : isRetry t = true -> isPoll t = true -> False.
Proof. unfold isRetry, isPoll. destruct (t_kind t); discriminate. Qed.











Lemma filter_id {A} (p : A -> bool) (l : list A) :
  (forall a, In a l -> p a = true) -> filter p l = l.
Proof.
  induction l as [|a l IH]; cbn; intros H; [reflexivity|].
  rewrite (H a) by auto. f_equal. apply IH. auto.
Qed.

Lemma pendingRetries_le_1 options st :
  invariant options st -> (List.length (pendingRetries st) <= 1)%nat.
Proof.
  intros HI. unfold pendingRetries.
  destruct (reconnectTimeoutRef st) as [id|] eqn:Href.
  - rewrite <- (length_map t_id). apply NoDup_constant with (a := id).
    + apply handles_distinct_filter, (inv_timer_nodup _ _ HI).
    + intros x Hx. apply in_map_iff in Hx as (t & <- & Ht).
      apply filter_In in Ht as [Ht Hr].
      pose proof (inv_retry _ _ HI t Ht Hr). congruence.
  - rewrite filter_nil; [cbn; lia|]. intros t Ht.
    destruct (isRetry t) eqn:Hr; [|reflexivity].
    pose proof (inv_retry _ _ HI t Ht Hr). congruence.
Qed.

Lemma calls_disposeAll st : calls (disposeAll st) = calls st.
Proof. unfold disposeAll. now rewrite fold_runDisposer. Qed.

(** What [disconnect] leaves behind. *)
Lemma disconnect_spec options st :
  invariant options st ->
  let st' := disconnect options st in
  unsubscribersRef st' = [] /\
  ws_listeners (wsRef st') = [] /\
  pendingRetries st' = [] /\
  pendingPolls st' = [] /\
  (forall t, In t (timers st') -> In t (pendingSettles st)) /\
  reconnectTimeoutRef st' = None /\
  shouldReconnectRef st' = false /\
  isConnectingRef st' = false /\
  reconnectAttemptsRef st' = 0 /\
  isConnected st' = false /\
  connectionId st' = None /\
  connectionState st' = DISCONNECTED /\
  ws_isConnected (wsRef st') = false /\
  calls st' = calls st ++ CallWsDisconnect
              :: (if onDisconnect options then [CallOnDisconnect] else []).
Proof.
  intros HI.
  set (st0 := set_isConnectingRef false (set_shouldReconnectRef false st)).
  assert (HI0 : invariant options st0).
  { apply invariant_frame with (st := st); try assumption; try reflexivity.
    apply (inv_attempts _ _ HI). }
  destruct (invariant_clearReconnectTimeout options st0 HI0)
    as (HI1 & Href & Hnone & _ & Hs & _).
  destruct (clearReconnectTimeout_frame st0) as (_ & _ & _ & _ & _ & _ & Hsub).
  cbv zeta in HI1, Href, Hnone, Hs, Hsub.
  set (st1 := clearReconnectTimeout st0) in *.
  destruct (disposeAll_spec options st1 HI1)
    as (Hu & Hl & Hp & Ht & _ & _ & Hr & _).
  assert (Hretry : pendingRetries (disposeAll st1) = []).
  { apply filter_nil. intros t Hin. destruct (isRetry t) eqn:Hre; auto.
    assert (Hin1 : In t (pendingRetries st1))
      by (apply filter_In; auto).
    now rewrite Hnone in Hin1. }
  assert (Hcalls : calls (disposeAll st1) = calls st).
  { rewrite calls_disposeAll. subst st1 st0.
    unfold clearReconnectTimeout. fields.
    now destruct (reconnectTimeoutRef st). }
  assert (Hshould : shouldReconnectRef (disposeAll st1) = false).
  { unfold disposeAll. rewrite fold_runDisposer. fields. now rewrite Hs. }
  assert (Hflag : isConnectingRef (disposeAll st1) = false).
  { unfold disposeAll. rewrite fold_runDisposer. subst st1 st0.
    unfold clearReconnectTimeout. fields.
    now destruct (reconnectTimeoutRef st). }
  assert (Hhandle : reconnectTimeoutRef (disposeAll st1) = None)
    by congruence.
  assert (Hsettle : forall t, In t (timers (disposeAll st1)) ->
                              In t (pendingSettles st)).
  { intros t Hin. apply filter_In. split; [now apply Hsub, Ht|].
    assert (Hnp : ~ In t (pendingPolls (disposeAll st1)))
      by (rewrite Hp; intros []).
    assert (Hnr : ~ In t (pendingRetries (disposeAll st1)))
      by (rewrite Hretry; intros []).
    unfold pendingPolls, pendingRetries in Hnp, Hnr.
    rewrite filter_In in Hnp, Hnr. unfold isSettle, isPoll, isRetry in *.
    destruct (t_kind t); try reflexivity; exfalso; auto. }
  unfold disconnect. fold st0. cbv zeta. fold st1.
  unfold invoke, ws_disconnect, pendingRetries, pendingPolls in *.
  destruct (onDisconnect options); fields;
    rewrite ?Hcalls, ?Hflag, ?Hhandle, <- ?app_assoc;
    splits; auto.
Qed.

(** C9.  A reachable state has at most one retry timer pending.
    [scheduleReconnect] first cancels the one that is pending, if any, so
    that afterwards the only retry timer is the one it has just armed,
    if it armed one; and clearing when no retry timer is pending removes
    nothing, in [scheduleReconnect] as in [disconnect]. *)
Theorem one_pending_retry_timer options (st : Hook) :
  reachable options st ->
  (List.length (pendingRetries st) <= 1)%nat /\
  (forall captured random,
     let st' := scheduleReconnect options captured random st in
     (List.length (pendingRetries st') <= 1)%nat /\
     (forall t, In t (pendingRetries st) -> ~ In t (timers st')) /\
     (retryDecision options st ->
      pendingRetries st'
      = [mkTimer (nextTimer st)
           (RetryTimer captured
              (reconnectDelay (reconnectAttemptsRef st + 1) random))]) /\
     (~ retryDecision options st -> pendingRetries st' = [])) /\
  (pendingRetries st = [] ->
   timers (clearReconnectTimeout st) = timers st) /\
  pendingRetries (clearReconnectTimeout st) = [] /\
  pendingRetries (disconnect options st) = [].
Proof.
  intros Hreach. pose proof (invariant_reachable _ _ Hreach) as HI.
  destruct (invariant_clearReconnectTimeout options st HI)
    as (HI1 & _ & Hnone & _).
  cbv zeta in HI1, Hnone.
  splits.
  - now apply pendingRetries_le_1 with (options := options).
  - intros captured random st'. subst st'. splits.
    + apply pendingRetries_le_1 with (options := options).
      now apply invariant_scheduleReconnect.
    + intros t Ht Hin. apply pendingRetries_In in Ht as [Ht Hr].
      pose proof (inv_retry _ _ HI t Ht Hr) as Href.
      pose proof (inv_timer_fresh _ _ HI t Ht) as Hfresh.
      assert (Hgone : ~ In t (timers (clearReconnectTimeout st))).
      { unfold clearReconnectTimeout. rewrite Href. unfold clearTimer.
        fields. rewrite filter_In, Nat.eqb_refl. intros [_ Hf].
        discriminate. }
      destruct (scheduleReconnect_cases options captured random st)
        as [([Hon Hlt] & _)|(Hno & _)].
      * destruct (scheduleReconnect_armed options captured random st
                    Hon Hlt) as (_ & _ & _ & Heq).
        rewrite Heq in Hin. apply in_app_or in Hin as [Hin|[<-|[]]];
          [now apply Hgone | cbn in Hfresh; lia].
      * destruct (scheduleReconnect_refused options captured random st)
          as (_ & _ & _ & _ & _ & Heq).
        { unfold retryDecision in Hno.
          destruct (shouldReconnectRef st); [right; lia | now left]. }
        rewrite Heq in Hin. now apply Hgone.
    + intros [Hon Hlt].
      destruct (scheduleReconnect_armed options captured random st
                  Hon Hlt) as (_ & _ & _ & Heq).
      unfold pendingRetries in *. now rewrite Heq, filter_app, Hnone.
    + intros Hno.
      destruct (scheduleReconnect_refused options captured random st)
        as (_ & _ & _ & _ & _ & Heq).
      { unfold retryDecision in Hno.
        destruct (shouldReconnectRef st); [right; lia | now left]. }
      unfold pendingRetries in *. now rewrite Heq.
  - intros Hempty. unfold clearReconnectTimeout.
    destruct (reconnectTimeoutRef st) as [id|] eqn:Href; [|reflexivity].
    unfold clearTimer. fields. apply filter_id. intros t Ht.
    destruct (Nat.eqb (t_id t) id) eqn:Heq; [|reflexivity].
    apply Nat.eqb_eq in Heq. subst id.
    pose proof (inv_handle_retry _ _ HI t Ht Href) as Hr.
    assert (Hin : In t (pendingRetries st)) by (apply filter_In; auto).
    now rewrite Hempty in Hin.
  - exact Hnone.
  - now destruct (disconnect_spec options st HI) as (_ & _ & Hr & _).
Qed.

Lemma one_pending_retry_timer_witness :
  let st := run default_options
                (EvEffect CONNECTING :: repeat (EvTimer 1 0) 2) initial in
  pendingRetries st = [mkTimer 3 (RetryTimer CONNECTING 2000)] /\
  (List.length (pendingRetries st) <= 1)%nat /\
  pendingRetries (disconnect default_options st) = [].
Proof.
  intros st.
  assert (Hreach : reachable default_options st)
    by (exists (EvEffect CONNECTING :: repeat (EvTimer 1 0%Q) 2);
        reflexivity).
  destruct (one_pending_retry_timer default_options st Hreach)
    as (Hle & _ & _ & _ & Hdisc).
  splits; [vm_compute; reflexivity | exact Hle | exact Hdisc].
Defined.

(** ** Dispatch *)

Lemma handleMessage_calls options m st :
  lastMessage (handleMessage options m st) = Some m /\
  calls (handleMessage options m st)
  = calls st
    ++ (if (type m =? "connected")%string && onConnect options
        then [CallOnConnect] else [])
    ++ (if (type m =? "error")%string && onError options
        then [CallOnError (message m)] else [])
    ++ (if onMessage options then [CallOnMessage m] else []).
Proof.
  unfold handleMessage, invoke.
  destruct (type m =? "connected")%string, (type m =? "error")%string,
    (onConnect options), (onError options), (onMessage options);
    cbn [andb]; fields; rewrite <- ?app_assoc, ?app_nil_r;
    split; reflexivity.
Qed.

Lemma onMessageCalls_handleMessage options m st :
  onMessageCalls (handleMessage options m st)
  = onMessageCalls st ++ (if onMessage options then [CallOnMessage m] else []).
Proof.
  unfold onMessageCalls.
  destruct (handleMessage_calls options m st) as [_ ->].
  rewrite !filter_app. f_equal.
  destruct ((type m =? "connected")%string && onConnect options),
    ((type m =? "error")%string && onError options),
    (onMessage options); reflexivity.
Qed.

(** Neither React state cell of the state machine nor the refs are touched
    by [handleMessage] when the message is not an acknowledgement. *)
Lemma handleMessage_not_connected options m st :
  (type m =? "connected")%string = false ->
  let st' := handleMessage options m st in
  connectionState st' = connectionState st /\
  isConnected st' = isConnected st /\
  connectionId st' = connectionId st /\
  isConnectingRef st' = isConnectingRef st /\
  reconnectAttemptsRef st' = reconnectAttemptsRef st /\
  shouldReconnectRef st' = shouldReconnectRef st /\
  reconnectTimeoutRef st' = reconnectTimeoutRef st /\
  timers st' = timers st /\
  wsRef st' = wsRef st /\
  unsubscribersRef st' = unsubscribersRef st.
Proof.
  intros Hno. unfold handleMessage, invoke. rewrite Hno.
  destruct (type m =? "error")%string, (onError options),
    (onMessage options); fields; splits; reflexivity.
Qed.

Lemma no_typeListener_matches m base ts :
  ~ In (type m) ts -> filter (matches m) (typeListeners base ts) = [].
Proof.
  revert base. induction ts as [|t ts IH]; intros base Hnot; cbn;
    [reflexivity|].
  unfold matches at 1. cbn.
  destruct (String.eqb_spec t (type m)) as [->|_].
  - exfalso. apply Hnot. now left.
  - apply IH. intros Hin. apply Hnot. now right.
Qed.

Lemma wildcard_handlers m base id :
  map l_handler
      (filter (matches m)
              [mkListener base OnAny HandleMessage;
               mkListener id (OnType "error") ErrorListener])
  = HandleMessage
    :: (if ("error" =? type m)%string then [ErrorListener] else []).
Proof.
  cbn [filter]. unfold matches. cbn [l_selector].
  now destruct ("error" =? type m)%string.
Qed.

(** C8.  With a non-empty [messageTypes] list, an inbound message whose tag
    is not in the list reaches neither [onMessage] nor [lastMessage].
    Without a list, every inbound message of a subscribed hook sets
    [lastMessage] and is handed to [onMessage] exactly once. *)
Theorem selector_filtering options (m : WsMessage) (st : Hook) :
  reachable options st ->
  (forall types,
     messageTypes options = Some types -> types <> [] ->
     ~ In (type m) types ->
     lastMessage (ws_emit options m st) = lastMessage st /\
     onMessageCalls (ws_emit options m st) = onMessageCalls st) /\
  (messageTypes options = None ->
   ws_listeners (wsRef st) <> [] ->
   onMessage options = true ->
   lastMessage (ws_emit options m st) = Some m /\
   onMessageCalls (ws_emit options m st)
   = onMessageCalls st ++ [CallOnMessage m]).
Proof.
  intros Hreach. pose proof (invariant_reachable _ _ Hreach) as HI.
  pose proof (inv_listeners _ _ HI) as Hshape. split.
  - intros types Htypes Hnonempty Hnot. unfold ws_emit.
    destruct Hshape as [->|[base ->]]; [split; reflexivity|].
    unfold subscriptions, messageListeners. rewrite Htypes.
    destruct types as [|t ts]; [congruence|].
    rewrite filter_app, no_typeListener_matches by assumption.
    cbn [app filter]. destruct (matches m _); cbn; split; reflexivity.
  - intros Hnone Hsubscribed Hcb. unfold ws_emit.
    destruct Hshape as [Hempty|[base ->]]; [congruence|].
    unfold subscriptions, messageListeners. rewrite Hnone.
    cbn [app List.length]. rewrite wildcard_handlers.
    destruct ("error" =? type m)%string;
      cbn [fold_left runHandler];
      unfold errorListener, onMessageCalls; fields;
      fold (onMessageCalls (handleMessage options m st));
      rewrite onMessageCalls_handleMessage, Hcb;
      (split; [apply handleMessage_calls | reflexivity]).
Qed.

Lemma selector_filtering_witness :
  let options :=
    {| autoConnect := true;
       messageTypes := Some ["snapshot_update"];
       onMessage := true; onConnect := true; onDisconnect := true;
       onError := true; wsConfig_maxReconnectAttempts := None |} in
  let m := mkWsMessage "corridor_update" None None "payload" in
  let st := run options [EvEffect DISCONNECTED] initial in
  let st0 := run default_options [EvEffect DISCONNECTED] initial in
  ws_listeners (wsRef st)
  = [mkListener 1 (OnType "snapshot_update") HandleMessage;
     mkListener 2 (OnType "error") ErrorListener] /\
  lastMessage (ws_emit options m st) = lastMessage st /\
  onMessageCalls (ws_emit options m st) = onMessageCalls st /\
  lastMessage (ws_emit default_options m st0) = Some m /\
  onMessageCalls (ws_emit default_options m st0)
  = onMessageCalls st0 ++ [CallOnMessage m].
Proof.
  intros options m st st0.
  assert (Hreach : reachable options st)
    by (exists [EvEffect DISCONNECTED]; reflexivity).
  assert (Hreach0 : reachable default_options st0)
    by (exists [EvEffect DISCONNECTED]; reflexivity).
  destruct (selector_filtering options m st Hreach) as (Hfilter & _).
  destruct (Hfilter ["snapshot_update"]) as (Hlast & Hcalls);
    [reflexivity | discriminate | |].
  { intros [Heq|[]]. discriminate Heq. }
  destruct (selector_filtering default_options m st0 Hreach0)
    as (_ & Hall).
  destruct Hall as (Hlast0 & Hcalls0);
    [reflexivity | vm_compute; discriminate | reflexivity |].
  splits; [vm_compute; reflexivity | exact Hlast | exact Hcalls
          | exact Hlast0 | exact Hcalls0].
Defined.

(** C5 fails as stated: while the hook is Connecting, an error message
    delivered by the transport reaches [onError] and [onMessage], and the
    listener that [connect] registered on ['error'] moves the state machine
    to Disconnected and clears the in-flight flag.  That state change comes
    neither from an acknowledgement nor from the poll. *)
Lemma error_message_disconnects :
  let m := mkWsMessage "error" None (Some "boom") "" in
  let st := run default_options [EvEffect DISCONNECTED] initial in
  let st' := step default_options st (EvMessage m) in
  connectionState st = CONNECTING /\
  isConnectingRef st = true /\
  connectionState st' = DISCONNECTED /\
  isConnectingRef st' = false /\
  calls st' = [CallWsConnect; CallOnError (Some "boom"); CallOnMessage m].
Proof. cbv zeta. splits; vm_compute; reflexivity. Qed.

Lemma error_listener_matches m id :
  type m = "error" ->
  map l_handler
      (filter (matches m) [mkListener id (OnType "error") ErrorListener])
  = [ErrorListener].
Proof.
  intros Htype. cbn [filter]. unfold matches. cbn [l_selector].
  now rewrite Htype.
Qed.

(** C5, amended.  [handleMessage], given a message with the error tag,
    invokes [onError] with the carried text and then [onMessage] with the
    message, like for any other message, records it as [lastMessage], and
    leaves the connection state, the in-flight flag and the counter as they
    were.  The delivery of that message by the transport also runs the
    listener that [connect] registers on the error tag, which clears the
    in-flight flag and sets the connection state to Disconnected. *)
Theorem error_message_dispatch options (m : WsMessage) (st : Hook) :
  type m = "error" ->
  let st' := handleMessage options m st in
  lastMessage st' = Some m /\
  calls st' = calls st
              ++ (if onError options then [CallOnError (message m)] else [])
              ++ (if onMessage options then [CallOnMessage m] else []) /\
  connectionState st' = connectionState st /\
  isConnected st' = isConnected st /\
  connectionId st' = connectionId st /\
  isConnectingRef st' = isConnectingRef st /\
  reconnectAttemptsRef st' = reconnectAttemptsRef st /\
  connectionState (errorListener st) = DISCONNECTED /\
  isConnectingRef (errorListener st) = false /\
  (reachable options st ->
   ws_listeners (wsRef st) <> [] ->
   connectionState (ws_emit options m st) = DISCONNECTED /\
   isConnectingRef (ws_emit options m st) = false).
Proof.
  intros Htype st'. subst st'.
  destruct (handleMessage_calls options m st) as (Hlast & Hcalls).
  rewrite Htype in Hcalls. cbn [String.eqb Ascii.eqb Bool.eqb andb] in Hcalls.
  destruct (handleMessage_not_connected options m st)
    as (Hs & Hc & Hi & Hf & Ha & _); [now rewrite Htype|].
  splits; try assumption; try reflexivity;
    intros Hreach Hsubscribed;
    pose proof (invariant_reachable _ _ Hreach) as HI;
    destruct (inv_listeners _ _ HI) as [Hempty|[base Hshape]];
    try congruence;
    unfold ws_emit; rewrite Hshape; unfold subscriptions;
    rewrite filter_app, map_app, fold_left_app,
      error_listener_matches by assumption;
    cbn [fold_left]; split; reflexivity.
Qed.

Lemma error_message_dispatch_witness :
  let m := mkWsMessage "error" None (Some "boom") "" in
  let st := run default_options [EvEffect DISCONNECTED] initial in
  let st' := handleMessage default_options m st in
  calls st' = calls st ++ [CallOnError (Some "boom"); CallOnMessage m] /\
  connectionState st' = connectionState st /\
  connectionState (ws_emit default_options m st) = DISCONNECTED.
Proof.
  intros m st st'.
  assert (Hreach : reachable default_options st)
    by (exists [EvEffect DISCONNECTED]; reflexivity).
  destruct (error_message_dispatch default_options m st)
    as (_ & Hcalls & Hstate & _ & _ & _ & _ & _ & _ & Hemit);
    [reflexivity|].
  destruct (Hemit Hreach) as (Hdown & _); [vm_compute; discriminate|].
  splits; [exact Hcalls | exact Hstate | exact Hdown].
Defined.

(** ** disconnect() *)

(** C4.  The claim asks for no pending timer after [disconnect()].  The
    100 ms timer that [reconnect()] arms is kept in no ref, so a
    [disconnect()] that follows within the 100 ms cannot clear it: it stays
    pending, and when it comes due it calls [connect()], which subscribes
    again and opens the transport although [disconnect()] was the last
    request.  [disconnect_spec] above states what [disconnect()] does
    achieve. *)
Theorem disconnect_leaves_settle_timer :
  let st := run default_options
                [EvEffect DISCONNECTED; EvReconnect DISCONNECTED;
                 EvDisconnect] initial in
  let st' := step default_options st (EvTimer 2 0) in
  timers st = [mkTimer 2 (SettleTimer DISCONNECTED)] /\
  ws_listeners (wsRef st) = [] /\
  shouldReconnectRef st = false /\
  connectionState st = DISCONNECTED /\
  connectionState st' = CONNECTING /\
  transportConnects st' = S (transportConnects st) /\
  List.length (ws_listeners (wsRef st')) = 2%nat /\
  pendingPolls st' = [mkTimer 3 (PollInterval DISCONNECTED)].
Proof. cbv zeta. splits; vm_compute; reflexivity. Qed.

(** * Further properties of the hook *)

(** ** disconnect() *)

(** X1.  On a reachable state [disconnect()] leaves no listener on the
    transport and nothing on [unsubscribersRef], no retry timer and no poll
    interval; a timer still pending afterwards is a 100 ms timer of an
    earlier [reconnect()].  It switches auto-reconnect off, clears the
    in-flight flag and the stored timer handle, resets the counter, shows
    a disconnected state, and calls the transport's [disconnect()] and then
    [onDisconnect], once each. *)
Theorem disconnect_releases_everything_tracked options (st : Hook) :
  reachable options st ->
  let st' := disconnect options st in
  ws_listeners (wsRef st') = [] /\
  unsubscribersRef st' = [] /\
  pendingRetries st' = [] /\
  pendingPolls st' = [] /\
  (forall t, In t (timers st') -> isSettle t = true /\ In t (timers st)) /\
  shouldReconnectRef st' = false /\
  isConnectingRef st' = false /\
  reconnectTimeoutRef st' = None /\
  reconnectAttemptsRef st' = 0 /\
  isConnected st' = false /\
  connectionId st' = None /\
  connectionState st' = DISCONNECTED /\
  calls st' = calls st ++ CallWsDisconnect
              :: (if onDisconnect options then [CallOnDisconnect] else []).
Proof.
  intros Hreach st'. subst st'.
  pose proof (invariant_reachable _ _ Hreach) as HI.
  destruct (disconnect_spec options st HI)
    as (H1 & H2 & H3 & H4 & H5 & H6 & H7 & H8 & H9 & H10 & H11 & H12
        & _ & H14).
  splits; try assumption.
  intros t Ht. apply H5 in Ht. unfold pendingSettles in Ht.
  apply filter_In in Ht. tauto.
Qed.

Lemma disconnect_releases_everything_tracked_witness :
  let st := run default_options
                (EvEffect CONNECTING :: repeat (EvTimer 1 0) 2) initial in
  List.length (ws_listeners (wsRef st)) = 2%nat /\
  List.length (timers st) = 2%nat /\
  ws_listeners (wsRef (disconnect default_options st)) = [] /\
  pendingRetries (disconnect default_options st) = [] /\
  pendingPolls (disconnect default_options st) = [].
Proof.
  intros st.
  assert (Hreach : reachable default_options st)
    by (exists (EvEffect CONNECTING :: repeat (EvTimer 1 0%Q) 2);
        reflexivity).
  destruct (disconnect_releases_everything_tracked default_options st Hreach)
    as (H1 & _ & H3 & H4 & _).
  splits; [vm_compute; reflexivity | vm_compute; reflexivity
          | exact H1 | exact H3 | exact H4].
Defined.

Lemma disconnect_flags options (st : Hook) :
  let st' := disconnect options st in
  unsubscribersRef st' = [] /\
  reconnectTimeoutRef st' = None /\
  shouldReconnectRef st' = false /\
  isConnectingRef st' = false /\
  isConnected st' = false /\
  connectionId st' = None /\
  connectionState st' = DISCONNECTED /\
  reconnectAttemptsRef st' = 0 /\
  ws_isConnected (wsRef st') = false /\
  ws_getConnectionId (wsRef st') = None.
Proof.
  cbv zeta.
  set (st0 := set_isConnectingRef false (set_shouldReconnectRef false st)).
  destruct (clearReconnectTimeout_frame st0)
    as (Hr & Hs & _ & _ & Hf & _).
  cbv zeta in Hr, Hs, Hf.
  unfold disconnect, invoke, ws_disconnect, disposeAll. fold st0.
  rewrite fold_runDisposer.
  destruct (onDisconnect options); fields; rewrite ?Hr, ?Hs, ?Hf;
    splits; reflexivity.
Qed.

(** X2.  A second [disconnect()] right after a first changes nothing but
    the call log: the transport's [disconnect()] and [onDisconnect] are
    called again, every other field stays as the first call left it. *)
Theorem disconnect_twice options (st : Hook) :
  let once := disconnect options st in
  let twice := disconnect options once in
  sameButCalls twice once /\
  calls twice = calls once ++ CallWsDisconnect
                :: (if onDisconnect options then [CallOnDisconnect] else []).
Proof.
  cbv zeta.
  destruct (disconnect_flags options st)
    as (Hu & Hr & F1 & F2 & F3 & F4 & F5 & F6 & F7 & F8).
  cbv zeta in *.
  set (once := disconnect options st) in *. clearbody once.
  unfold sameButCalls, disconnect, clearReconnectTimeout, disposeAll.
  fields. rewrite Hr, Hu. cbn [fold_left].
  unfold invoke, ws_disconnect.
  destruct once as [? ? ? ? ? ? ? ? ? ws ? ? ?]; destruct ws.
  cbn in *. subst.
  destruct (onDisconnect options); cbn; rewrite <- ?app_assoc;
    splits; reflexivity.
Qed.

(** ** connect() *)

Lemma connect_cycle options captured (st : Hook) :
  invariant options st ->
  isConnectingRef st = false ->
  ws_isConnected (wsRef st) = false ->
  let st' := connect options captured st in
  ws_listeners (wsRef st')
  = subscriptions options (ws_nextListener (wsRef st)) /\
  unsubscribersRef st'
  = cycleDisposers options (ws_nextListener (wsRef st)) (nextTimer st) /\
  pendingPolls st' = [mkTimer (nextTimer st) (PollInterval captured)] /\
  calls st' = calls st ++ CallWsConnect
              :: (if ws_throws (wsRef st) then [CallConsoleError] else []) /\
  connectionState st'
  = (if ws_throws (wsRef st) then DISCONNECTED else CONNECTING) /\
  isConnectingRef st' = negb (ws_throws (wsRef st)) /\
  reconnectAttemptsRef st' = reconnectAttemptsRef st /\
  shouldReconnectRef st' = shouldReconnectRef st /\
  reconnectTimeoutRef st' = reconnectTimeoutRef st /\
  ws_isConnected (wsRef st') = false /\
  ws_throws (wsRef st') = ws_throws (wsRef st).
Proof.
  intros HI Hflag Hconn st'. subst st'.
  rewrite connect_spec by assumption. cbv zeta. fields.
  rewrite (tracked_all_disposed _ _ HI). unfold pendingPolls. fields.
  rewrite filter_app. cbn [filter isPoll t_kind app].
  rewrite (filter_nil isPoll)
    by (intros t Ht; now apply (polls_all_disposed options st)).
  splits; try reflexivity; assumption.
Qed.

(** X3.  On a reachable state a [connect()] that goes ahead replaces every
    listener of the hook by the listeners of the new cycle (one per entry
    of a non-empty [messageTypes], else one wildcard listener, then the
    one on ['error']), leaves exactly one poll interval pending, the new
    one, records exactly those disposers, and invokes the transport's
    [connect()] once.  It touches neither the reconnect counter nor the
    auto-reconnect switch. *)
Theorem connect_starts_one_cycle options captured (st : Hook) :
  reachable options st ->
  isConnectingRef st = false ->
  ws_isConnected (wsRef st) = false ->
  let st' := connect options captured st in
  ws_listeners (wsRef st')
  = subscriptions options (ws_nextListener (wsRef st)) /\
  unsubscribersRef st'
  = cycleDisposers options (ws_nextListener (wsRef st)) (nextTimer st) /\
  pendingPolls st' = [mkTimer (nextTimer st) (PollInterval captured)] /\
  transportConnects st' = S (transportConnects st) /\
  reconnectAttemptsRef st' = reconnectAttemptsRef st /\
  shouldReconnectRef st' = shouldReconnectRef st.
Proof.
  intros Hreach Hflag Hconn st'. subst st'.
  pose proof (invariant_reachable _ _ Hreach) as HI.
  destruct (connect_cycle options captured st HI Hflag Hconn)
    as (H1 & H2 & H3 & _ & _ & _ & H7 & H8 & _).
  splits; try assumption.
  now apply transportConnects_connect.
Qed.

Lemma connect_starts_one_cycle_witness :
  let st := run default_options
                [EvEffect DISCONNECTED; EvTimer 1 0;
                 EvMessage (mkWsMessage "error" None (Some "boom") "")]
                initial in
  List.length (ws_listeners (wsRef st)) = 2%nat /\
  ws_listeners (wsRef (connect default_options CONNECTING st))
  = [mkListener 3 OnAny HandleMessage;
     mkListener 4 (OnType "error") ErrorListener] /\
  pendingPolls (connect default_options CONNECTING st)
  = [mkTimer 2 (PollInterval CONNECTING)].
Proof.
  intros st.
  assert (Hreach : reachable default_options st)
    by (eexists; reflexivity).
  destruct (connect_starts_one_cycle default_options CONNECTING st Hreach)
    as (H1 & _ & H3 & _); try (vm_compute; reflexivity).
  splits; [vm_compute; reflexivity | exact H1 | exact H3].
Defined.

(** X4.  When the transport's [connect()] throws, [connect()] catches it:
    the state machine is back in Disconnected with the in-flight flag
    cleared and the failure logged to the console, while the listeners and
    the poll interval of the cycle are in place all the same.  The call is
    then no longer guarded: a second [connect()] invokes the transport
    again. *)
Theorem connect_survives_throw options captured captured' (st : Hook) :
  reachable options st ->
  isConnectingRef st = false ->
  ws_isConnected (wsRef st) = false ->
  ws_throws (wsRef st) = true ->
  let st' := connect options captured st in
  connectionState st' = DISCONNECTED /\
  isConnectingRef st' = false /\
  calls st' = calls st ++ [CallWsConnect; CallConsoleError] /\
  ws_listeners (wsRef st')
  = subscriptions options (ws_nextListener (wsRef st)) /\
  pendingPolls st' = [mkTimer (nextTimer st) (PollInterval captured)] /\
  transportConnects (connect options captured' st')
  = S (S (transportConnects st)).
Proof.
  intros Hreach Hflag Hconn Hthrows st'. subst st'.
  pose proof (invariant_reachable _ _ Hreach) as HI.
  destruct (connect_cycle options captured st HI Hflag Hconn)
    as (H1 & _ & H3 & H4 & H5 & H6 & _ & _ & _ & H10 & _).
  cbv zeta in *. rewrite Hthrows in *. cbn [negb] in H6.
  splits; try assumption.
  rewrite transportConnects_connect by assumption.
  now rewrite (transportConnects_connect options captured st).
Qed.

Lemma connect_survives_throw_witness :
  let st := run default_options [EvTransport false None true] initial in
  let st' := connect default_options DISCONNECTED st in
  connectionState st' = DISCONNECTED /\
  calls st' = [CallWsConnect; CallConsoleError] /\
  transportConnects (connect default_options DISCONNECTED st') = 2%nat.
Proof.
  intros st st'.
  assert (Hreach : reachable default_options st)
    by (eexists; reflexivity).
  destruct (connect_survives_throw default_options DISCONNECTED
              DISCONNECTED st Hreach)
    as (H1 & _ & H3 & _ & _ & H6); try reflexivity.
  splits; [exact H1 | exact H3 | exact H6].
Defined.

(** ** The effect *)

Lemma transportConnects_log c st :
  isWsConnect c = false -> transportConnects (log c st) = transportConnects st.
Proof.
  intros Hc. unfold transportConnects, log. fields.
  rewrite filter_app. cbn [filter]. rewrite Hc, app_nil_r. reflexivity.
Qed.

Lemma idle_disconnect options st : idle st -> idle (disconnect options st).
Proof.
  intros (Ht & Hl & Hu & Hr & Hc).
  unfold idle, disconnect, clearReconnectTimeout, disposeAll.
  fields. rewrite Hr. fields. rewrite Hu. cbn [fold_left].
  unfold invoke, ws_disconnect, transportConnects in *.
  destruct (onDisconnect options); fields;
    rewrite ?filter_app, ?app_nil_r; cbn [filter isWsConnect];
    rewrite ?app_nil_r; splits; try assumption; reflexivity.
Qed.

Lemma idle_step options st e :
  autoConnect options = false ->
  isReconnect e = false ->
  idle st -> idle (step options st e).
Proof.
  intros Hauto He Hidle.
  destruct e as [c| |c| | |m|id random|connected id throws];
    cbn [step]; try discriminate.
  - unfold effect. now rewrite Hauto.
  - unfold cleanup. apply idle_disconnect.
    destruct Hidle as (Ht & Hl & Hu & Hr & Hc). repeat split; assumption.
  - now apply idle_disconnect.
  - destruct Hidle as (Ht & Hl & Hu & Hr & Hc). unfold ping, ws_ping.
    repeat split; try assumption.
    now rewrite transportConnects_log.
  - destruct Hidle as (Ht & Hl & Hu & Hr & Hc). unfold ws_emit.
    rewrite Hl. cbn. repeat split; assumption.
  - destruct Hidle as (Ht & Hl & Hu & Hr & Hc). unfold timerFires, findTimer.
    rewrite Ht. cbn. repeat split; assumption.
  - destruct Hidle as (Ht & Hl & Hu & Hr & Hc).
    repeat split; assumption.
Qed.

(** X5.  With [autoConnect] false the hook does nothing on its own: as long
    as the caller has not used the returned [connect()], no sequence of
    effects, cleanups, [disconnect()], [ping()], deliveries, timer ticks or
    transport changes ever invokes the transport's [connect()], registers a
    listener or arms a timer. *)
Theorem no_connection_without_autoConnect options (es : list Event) :
  autoConnect options = false ->
  forallb (fun e => negb (isReconnect e)) es = true ->
  let st := run options es initial in
  transportConnects st = 0%nat /\
  ws_listeners (wsRef st) = [] /\
  timers st = [] /\
  unsubscribersRef st = [].
Proof.
  intros Hauto Hes st.
  assert (Hidle : idle st).
  { subst st. unfold run.
    assert (H0 : idle initial) by (repeat split).
    revert H0. generalize initial as s.
    induction es as [|e es IH]; intros s Hs; cbn [fold_left];
      [assumption|].
    cbn [forallb] in Hes. apply andb_true_iff in Hes as [He Hes].
    apply (IH Hes). apply idle_step; try assumption.
    now destruct (isReconnect e). }
  destruct Hidle as (Ht & Hl & Hu & _ & Hc). now splits.
Qed.

Lemma no_connection_without_autoConnect_witness :
  let options :=
    {| autoConnect := false; messageTypes := None; onMessage := true;
       onConnect := true; onDisconnect := true; onError := true;
       wsConfig_maxReconnectAttempts := None |} in
  let st := run options
                [EvEffect DISCONNECTED; EvTransport true (Some "c-1") false;
                 EvTimer 1 0; EvCleanup; EvEffect DISCONNECTED] initial in
  transportConnects st = 0%nat /\ timers st = [].
Proof.
  intros options st.
  destruct (no_connection_without_autoConnect options
              [EvEffect DISCONNECTED; EvTransport true (Some "c-1") false;
               EvTimer 1 0%Q; EvCleanup; EvEffect DISCONNECTED])
    as (H1 & _ & H3 & _); try reflexivity.
  split; [exact H1 | exact H3].
Defined.

(** ** Successive retries *)

Lemma scheduleReconnect_counts options captured random st :
  shouldReconnectRef st = true ->
  0 <= reconnectAttemptsRef st <= maxReconnectAttempts options ->
  let st' := scheduleReconnect options captured random st in
  shouldReconnectRef st' = true /\
  reconnectAttemptsRef st'
  = Z.min (reconnectAttemptsRef st + 1) (maxReconnectAttempts options) /\
  connectionState st'
  = (if (reconnectAttemptsRef st + 1 <=? maxReconnectAttempts options)%Z
     then RECONNECTING else DISCONNECTED).
Proof.
  intros Hon [Hge Hle]. cbv zeta.
  destruct (Z.lt_ge_cases (reconnectAttemptsRef st)
                          (maxReconnectAttempts options)) as [Hlt|Hfull].
  - destruct (scheduleReconnect_armed options captured random st Hon Hlt)
      as (Hs & Ha & _ & _).
    cbv zeta in *. rewrite Hs, Ha.
    destruct (Z.leb_spec (reconnectAttemptsRef st + 1)
                         (maxReconnectAttempts options)); [|lia].
    splits; try reflexivity; try lia.
    unfold scheduleReconnect, setTimer.
    destruct (clearReconnectTimeout_frame st) as (_ & Hs' & Ha' & _).
    cbv zeta in *. rewrite Hs', Ha', Hon.
    apply Z.leb_gt in Hlt. rewrite Hlt. cbn [negb orb]. fields.
    congruence.
  - destruct (scheduleReconnect_refused options captured random st
                (or_intror Hfull)) as (Hs & _ & Ha & _).
    cbv zeta in *. rewrite Hs, Ha.
    destruct (Z.leb_spec (reconnectAttemptsRef st + 1)
                         (maxReconnectAttempts options)); [lia|].
    splits; try reflexivity; try lia.
    unfold scheduleReconnect.
    destruct (clearReconnectTimeout_frame st) as (_ & Hs' & Ha' & _).
    cbv zeta in *. rewrite Hs', Ha', Hon.
    apply Z.leb_le in Hfull. rewrite Hfull. cbn [negb orb]. fields.
    congruence.
Qed.

(** X6.  Calling [scheduleReconnect] [n] times in a row, with auto-reconnect
    on and nothing resetting the counter in between, counts up to the bound
    and stops there: the counter ends at [min(start + n, max)], and the
    last call leaves the state machine in Reconnecting when [start + n] is
    within the bound and in Disconnected when it is beyond. *)
Theorem successive_retries options captured (randoms : list Q) (st : Hook) :
  shouldReconnectRef st = true ->
  0 <= reconnectAttemptsRef st <= maxReconnectAttempts options ->
  randoms <> [] ->
  let n := Z.of_nat (List.length randoms) in
  let st' :=
    fold_left (fun s random => scheduleReconnect options captured random s)
              randoms st in
  reconnectAttemptsRef st'
  = Z.min (reconnectAttemptsRef st + n) (maxReconnectAttempts options) /\
  connectionState st'
  = (if (reconnectAttemptsRef st + n <=? maxReconnectAttempts options)%Z
     then RECONNECTING else DISCONNECTED) /\
  shouldReconnectRef st' = true.
Proof.
  intros Hon Hbound Hne. cbv zeta. revert st Hon Hbound.
  induction randoms as [|r rs IH]; [congruence|]. intros st Hon Hbound.
  cbn [fold_left].
  destruct (scheduleReconnect_counts options captured r st Hon Hbound)
    as (Hon1 & Ha1 & Hs1).
  cbv zeta in *.
  set (st1 := scheduleReconnect options captured r st) in *.
  destruct rs as [|r' rs].
  - cbn [fold_left List.length]. rewrite Ha1, Hs1.
    change (Z.of_nat 1) with 1. splits; auto.
  - assert (Hbound1 : 0 <= reconnectAttemptsRef st1
                      <= maxReconnectAttempts options) by lia.
    destruct (IH ltac:(discriminate) st1 Hon1 Hbound1) as (Ha & Hs & Hon').
    rewrite Ha, Hs, Ha1.
    set (m := Z.of_nat (List.length (r' :: rs))) in *.
    assert (Hm : 1 <= m) by (subst m; cbn [List.length]; lia).
    replace (Z.of_nat (List.length (r :: r' :: rs))) with (m + 1)
      by (subst m; cbn [List.length]; lia).
    splits; try assumption; try lia.
    destruct (Z.leb_spec
                (Z.min (reconnectAttemptsRef st + 1)
                       (maxReconnectAttempts options) + m)
                (maxReconnectAttempts options));
      destruct (Z.leb_spec (reconnectAttemptsRef st + (m + 1))
                           (maxReconnectAttempts options));
      try reflexivity; lia.
Qed.

Lemma successive_retries_witness :
  let st' :=
    fold_left (fun s random =>
                 scheduleReconnect default_options CONNECTING random s)
              [0; 1 # 2; 0; 0; 1 # 3; 0; 0]%Q initial in
  reconnectAttemptsRef st' = 5 /\ connectionState st' = DISCONNECTED.
Proof.
  intros st'.
  destruct (successive_retries default_options CONNECTING
              [0; 1 # 2; 0; 0; 1 # 3; 0; 0]%Q initial)
    as (Ha & Hs & _);
    [reflexivity | split; discriminate | discriminate |].
  split; [exact Ha | exact Hs].
Defined.

(** ** The polling callback *)

Lemma scheduleReconnect_frame options captured random st :
  let st' := scheduleReconnect options captured random st in
  calls st' = calls st /\
  isConnected st' = isConnected st /\
  connectionId st' = connectionId st /\
  lastMessage st' = lastMessage st /\
  wsRef st' = wsRef st /\
  unsubscribersRef st' = unsubscribersRef st /\
  shouldReconnectRef st' = shouldReconnectRef st.
Proof.
  cbv zeta. unfold scheduleReconnect, clearReconnectTimeout, setTimer.
  destruct (reconnectTimeoutRef st); cbv zeta; fields;
    match goal with |- context [if ?b then _ else _] => destruct b end;
    fields; splits; reflexivity.
Qed.

(** X7.  The polling callback invokes no callback of the caller and never
    resets the reconnect counter.  It copies the transport's answer into
    [isConnected] and [connectionId]; finding the transport connected it
    moves the state machine to Connected and clears the in-flight flag
    unless its closure was created while Connected, in which case it
    leaves both alone; finding the transport down with a closure created
    while Disconnected or Reconnecting it does nothing further: no state
    change, no retry. *)
Theorem poll_reconciliation options captured random (st : Hook) :
  let st' := checkConnection options captured random st in
  calls st' = calls st /\
  isConnected st' = ws_isConnected (wsRef st) /\
  reconnectAttemptsRef st <= reconnectAttemptsRef st' /\
  (ws_isConnected (wsRef st) = true ->
   connectionId st' = ws_getConnectionId (wsRef st) /\
   reconnectAttemptsRef st' = reconnectAttemptsRef st /\
   timers st' = timers st /\
   (captured <> CONNECTED ->
    connectionState st' = CONNECTED /\ isConnectingRef st' = false) /\
   (captured = CONNECTED ->
    connectionState st' = connectionState st /\
    isConnectingRef st' = isConnectingRef st)) /\
  (ws_isConnected (wsRef st) = false ->
   connectionId st' = None /\
   (captured = DISCONNECTED \/ captured = RECONNECTING ->
    connectionState st' = connectionState st /\
    isConnectingRef st' = isConnectingRef st /\
    reconnectAttemptsRef st' = reconnectAttemptsRef st /\
    timers st' = timers st)).
Proof.
  cbv zeta. unfold checkConnection. cbv zeta.
  destruct (ws_isConnected (wsRef st)) eqn:Hconn.
  - destruct captured; cbn [ConnectionState_eqb negb]; fields;
      splits; try reflexivity; try lia; try discriminate; intros;
      splits; try reflexivity; try congruence; intros; try discriminate;
      try congruence; split; reflexivity.
  - destruct captured; cbn [ConnectionState_eqb orb]; fields.
    1, 4: splits; try reflexivity; try lia; try discriminate; intros;
      splits; try reflexivity; intros; splits; reflexivity.
    all: set (st0 := set_connectionId None (set_isConnected false st));
      destruct (shouldReconnectRef st && _) eqn:Hdec;
      [ destruct (scheduleReconnect_frame options CONNECTING random st0)
          as (Hc & Hi & Hid & _);
        destruct (scheduleReconnect_frame options CONNECTED random st0)
          as (Hc' & Hi' & Hid' & _);
        cbv zeta in *;
        apply andb_true_iff in Hdec as [Hon Hlt]; apply Z.ltb_lt in Hlt
      | fields ];
      splits; try discriminate; try reflexivity; try lia;
      try (intros _; split; [|intros [?|?]; discriminate]).
    all: try (rewrite ?Hc, ?Hi, ?Hid, ?Hc', ?Hi', ?Hid'; reflexivity).
    all: try (destruct (scheduleReconnect_armed options CONNECTING random
                          st0 Hon Hlt) as (_ & Ha & _);
              cbv zeta in Ha; rewrite Ha; subst st0; fields; lia).
    all: try (destruct (scheduleReconnect_armed options CONNECTED random
                          st0 Hon Hlt) as (_ & Ha & _);
              cbv zeta in Ha; rewrite Ha; subst st0; fields; lia).
Qed.

Lemma poll_reconciliation_witness :
  let st := run default_options
                [EvEffect DISCONNECTED; EvTransport true (Some "c-9") false]
                initial in
  let st' := checkConnection default_options DISCONNECTED 0 st in
  connectionState st' = CONNECTED /\
  connectionId st' = Some "c-9" /\
  calls st' = calls st.
Proof.
  intros st st'.
  destruct (poll_reconciliation default_options DISCONNECTED 0 st)
    as (Hcalls & _ & _ & Hup & _).
  destruct Hup as (Hid & _ & _ & Hstate & _); [reflexivity|].
  destruct Hstate as (Hs & _); [discriminate|].
  splits; [exact Hs | exact Hid | exact Hcalls].
Defined.

(** ** What reaches the caller's callbacks *)

Lemma calls_clearReconnectTimeout st :
  calls (clearReconnectTimeout st) = calls st.
Proof. unfold clearReconnectTimeout. now destruct (reconnectTimeoutRef st). Qed.

Lemma calls_disconnect options st :
  calls (disconnect options st)
  = calls st ++ CallWsDisconnect
    :: (if onDisconnect options then [CallOnDisconnect] else []).
Proof.
  unfold disconnect, invoke, ws_disconnect.
  destruct (onDisconnect options); fields;
    rewrite calls_disposeAll, calls_clearReconnectTimeout; fields;
    rewrite <- ?app_assoc; reflexivity.
Qed.

Lemma calls_connect options captured st :
  exists added,
    calls (connect options captured st) = calls st ++ added /\
    forall c, In c added -> c = CallWsConnect \/ c = CallConsoleError.
Proof.
  destruct (isConnectingRef st) eqn:Hflag.
  { exists []. unfold connect. rewrite Hflag, app_nil_r.
    split; [reflexivity | intros c []]. }
  destruct (ws_isConnected (wsRef st)) eqn:Hconn.
  { exists []. unfold connect. rewrite Hflag, Hconn, app_nil_r.
    split; [reflexivity | intros c []]. }
  rewrite connect_spec by assumption. fields. eexists. split; [reflexivity|].
  intros c [<-|Hin]; [now left|].
  destruct (ws_throws (wsRef st)); [|destruct Hin].
  destruct Hin as [<-|[]]. now right.
Qed.

Lemma calls_checkConnection options captured random st :
  calls (checkConnection options captured random st) = calls st.
Proof.
  unfold checkConnection. cbv zeta.
  repeat match goal with
         | |- context [if ?b then _ else _] => destruct b
         end; fields; try reflexivity.
  now destruct (scheduleReconnect_frame options captured random
                  (set_connectionId None (set_isConnected false st)))
    as (-> & _).
Qed.

(** Outside the delivery of a message, the hook calls only the transport,
    the console and [onDisconnect]. *)
Lemma calls_step options st e :
  (forall m, e <> EvMessage m) ->
  exists added,
    calls (step options st e) = calls st ++ added /\
    forall c, In c added ->
              c = CallWsConnect \/ c = CallConsoleError \/
              c = CallWsDisconnect \/ c = CallOnDisconnect \/
              c = CallWsPing.
Proof.
  intros Hnot.
  assert (Hconnect : forall captured s,
            calls s = calls st ->
            exists added,
              calls (connect options captured s) = calls st ++ added /\
              forall c, In c added ->
                        c = CallWsConnect \/ c = CallConsoleError \/
                        c = CallWsDisconnect \/ c = CallOnDisconnect \/
                        c = CallWsPing).
  { intros captured s Hs.
    destruct (calls_connect options captured s) as (added & Heq & Hin).
    exists added. rewrite Heq, Hs. split; [reflexivity|].
    intros c Hc. destruct (Hin c Hc); auto. }
  assert (Hdisconnect : forall s,
            calls s = calls st ->
            exists added,
              calls (disconnect options s) = calls st ++ added /\
              forall c, In c added ->
                        c = CallWsConnect \/ c = CallConsoleError \/
                        c = CallWsDisconnect \/ c = CallOnDisconnect \/
                        c = CallWsPing).
  { intros s Hs. rewrite calls_disconnect, Hs. eexists.
    split; [reflexivity|]. intros c [<-|Hin]; auto.
    destruct (onDisconnect options); [|destruct Hin].
    destruct Hin as [<-|[]]. auto. }
  destruct e as [c| |c| | |m|id random|connected id throws]; cbn [step].
  - unfold effect. destruct (autoConnect options).
    + now apply Hconnect.
    + exists []. rewrite app_nil_r. split; [reflexivity | intros ? []].
  - unfold cleanup. now apply Hdisconnect.
  - unfold reconnect, setTimer. fields. now apply Hdisconnect.
  - now apply Hdisconnect.
  - exists [CallWsPing]. split; [reflexivity|]. intros ? [<-|[]]. auto 6.
  - now destruct (Hnot m).
  - unfold timerFires. destruct (findTimer id st) as [t|].
    + destruct (t_kind t); unfold retryFires;
        try (now apply Hconnect).
      exists []. rewrite calls_checkConnection, app_nil_r.
      split; [reflexivity | intros ? []].
    + exists []. rewrite app_nil_r. split; [reflexivity | intros ? []].
  - exists []. rewrite app_nil_r. split; [reflexivity | intros ? []].
Qed.

Lemma typeListeners_In base ts l :
  In l (typeListeners base ts) ->
  l_handler l = HandleMessage /\
  exists t, In t ts /\ l_selector l = OnType t.
Proof.
  revert base. induction ts as [|t ts IH]; intros base; cbn; [intros []|].
  intros [<-|Hin].
  - cbn. split; [reflexivity|]. exists t. auto.
  - destruct (IH _ Hin) as (Hh & t' & Ht' & Hsel).
    split; [assumption|]. exists t'. auto.
Qed.

Lemma handlers_allowed options types m hs st :
  (In HandleMessage hs -> In (type m) types) ->
  Forall (callAllowed types) (calls st) ->
  Forall (callAllowed types) (calls (fold_left (runHandler options m) hs st)).
Proof.
  revert st. induction hs as [|h hs IH]; intros st Hin Hall; cbn [fold_left];
    [assumption|].
  apply IH; [intros H; apply Hin; now right|].
  destruct h; cbn [runHandler]; [|exact Hall].
  assert (Hm : In (type m) types) by (apply Hin; now left).
  destruct (handleMessage_calls options m st) as (_ & ->).
  rewrite !Forall_app. splits; try assumption.
  - destruct (String.eqb_spec (type m) "connected") as [Heq|_];
      cbn [andb]; [|constructor].
    destruct (onConnect options); constructor; [|constructor].
    cbn. now rewrite <- Heq.
  - destruct (String.eqb_spec (type m) "error") as [Heq|_];
      cbn [andb]; [|constructor].
    destruct (onError options); constructor; [|constructor].
    cbn. now rewrite <- Heq.
  - destruct (onMessage options); constructor; [exact Hm | constructor].
Qed.

Lemma matching_handler_listed options types m base :
  messageTypes options = Some types -> types <> [] ->
  In HandleMessage
     (map l_handler (filter (matches m) (subscriptions options base))) ->
  In (type m) types.
Proof.
  intros Htypes Hne Hin.
  apply in_map_iff in Hin as (l & Hh & Hl).
  apply filter_In in Hl as [Hl Hmatch].
  unfold subscriptions, messageListeners in Hl. rewrite Htypes in Hl.
  destruct types as [|t ts]; [congruence|].
  apply in_app_or in Hl as [Hl|[<-|[]]]; [|discriminate].
  destruct (typeListeners_In _ _ _ Hl) as (_ & t' & Ht' & Hsel).
  unfold matches in Hmatch. rewrite Hsel in Hmatch.
  apply String.eqb_eq in Hmatch. now subst t'.
Qed.

Lemma allowed_reachable options types st :
  messageTypes options = Some types -> types <> [] ->
  reachable options st ->
  Forall (callAllowed types) (calls st).
Proof.
  intros Htypes Hne [es ->]. unfold run.
  assert (H0 : invariant options initial /\
               Forall (callAllowed types) (calls initial))
    by (split; [apply invariant_initial | constructor]).
  revert H0. generalize initial as s.
  induction es as [|e es IH]; intros s [HI Hall]; cbn [fold_left];
    [assumption|].
  apply IH. split; [now apply invariant_step|].
  assert (Hother : forall e', (forall m, e' <> EvMessage m) ->
            Forall (callAllowed types) (calls (step options s e'))).
  { intros e' He. destruct (calls_step options s e' He)
      as (added & -> & Hadded).
    apply Forall_app. split; [assumption|].
    apply Forall_forall. intros x Hx.
    destruct (Hadded x Hx) as [->|[->|[->|[->| ->]]]]; exact I. }
  destruct e as [c| |c| | |m|id random|connected id throws];
    try (apply Hother; intros ?; discriminate).
  cbn [step]. unfold ws_emit. apply handlers_allowed; [|assumption].
  destruct (inv_listeners _ _ HI) as [->|[base ->]]; [intros []|].
  now apply matching_handler_listed.
Qed.

(** X8.  With a non-empty [messageTypes], throughout the life of the hook
    [onMessage] is only ever invoked with messages whose tag is in the
    list, [onConnect] is invoked only if ['connected'] is in the list and
    [onError] only if ['error'] is. *)
Theorem allow_list_governs_callbacks options types (st : Hook) :
  messageTypes options = Some types ->
  types <> [] ->
  reachable options st ->
  (forall m, In (CallOnMessage m) (calls st) -> In (type m) types) /\
  (In CallOnConnect (calls st) -> In "connected" types) /\
  (forall text, In (CallOnError text) (calls st) -> In "error" types).
Proof.
  intros Htypes Hne Hreach.
  pose proof (allowed_reachable options types st Htypes Hne Hreach) as Hall.
  rewrite Forall_forall in Hall.
  splits; [intros m Hin | intros Hin | intros text Hin];
    exact (Hall _ Hin).
Qed.

Lemma allow_list_governs_callbacks_witness :
  let st := run useSnapshotUpdates
                [EvEffect DISCONNECTED;
                 EvMessage (mkWsMessage "connected" (Some "c-1") None "");
                 EvMessage (mkWsMessage "snapshot_update" None None "s1");
                 EvMessage (mkWsMessage "corridor_update" None None "c1")]
                initial in
  onMessageArguments (calls st)
  = [mkWsMessage "snapshot_update" None None "s1"] /\
  (In CallOnConnect (calls st) -> False).
Proof.
  intros st.
  assert (Hreach : reachable useSnapshotUpdates st)
    by (eexists; reflexivity).
  destruct (allow_list_governs_callbacks useSnapshotUpdates
              ["snapshot_update"] st) as (_ & Hconnect & _);
    [reflexivity | discriminate | exact Hreach |].
  split; [vm_compute; reflexivity|].
  intros Hin. destruct (Hconnect Hin) as [Heq|[]]. discriminate Heq.
Defined.



(** ** useSnapshotUpdates, useCorridorUpdates, useAnchorUpdates *)

Lemma onMessageArguments_app a b :
  onMessageArguments (a ++ b) = onMessageArguments a ++ onMessageArguments b.
Proof. apply flat_map_app. Qed.

Lemma onUpdateCalls_app tag a b :
  onUpdateCalls tag (a ++ b) = onUpdateCalls tag a ++ onUpdateCalls tag b.
Proof.
  unfold onUpdateCalls. now rewrite onMessageArguments_app, flat_map_app.
Qed.

Lemma updates_handlers tag m base :
  map l_handler
      (filter (matches m) (subscriptions (updatesOptions tag) base))
  = (if (tag =? type m)%string then [HandleMessage] else [])
    ++ (if ("error" =? type m)%string then [ErrorListener] else []).
Proof.
  unfold subscriptions, messageListeners. cbn [updatesOptions messageTypes].
  cbn [typeListeners app filter]. unfold matches. cbn [l_selector].
  destruct (tag =? type m)%string, ("error" =? type m)%string; reflexivity.
Qed.

(** X10.  In the three update hooks the guard of the wrapper never rejects
    anything: every message [onMessage] has been invoked with carries the
    hook's tag, so [onUpdate] has been invoked with exactly those messages.
    A subscribed hook hands a delivered message with its tag to [onUpdate]
    exactly once, and a message with another tag not at all. *)
Theorem update_hooks_deliver tag (m : WsMessage) (st : Hook) :
  reachable (updatesOptions tag) st ->
  onUpdateCalls tag (calls st) = onMessageArguments (calls st) /\
  (ws_listeners (wsRef st) <> [] ->
   type m = tag ->
   onUpdateCalls tag (calls (ws_emit (updatesOptions tag) m st))
   = onUpdateCalls tag (calls st) ++ [m]) /\
  (type m <> tag ->
   onUpdateCalls tag (calls (ws_emit (updatesOptions tag) m st))
   = onUpdateCalls tag (calls st)).
Proof.
  intros Hreach. pose proof (invariant_reachable _ _ Hreach) as HI.
  splits.
  - pose proof (allowed_reachable (updatesOptions tag) [tag] st eq_refl
                  ltac:(discriminate) Hreach) as Hall.
    unfold onUpdateCalls. induction (calls st) as [|c cs IH];
      [reflexivity|].
    inversion Hall as [|? ? Hc Hcs]; subst.
    change (c :: cs) with ([c] ++ cs).
    rewrite onMessageArguments_app, flat_map_app, (IH Hcs). f_equal.
    destruct c; try reflexivity. cbn. unfold updatesOnMessage.
    destruct Hc as [->|[]]. now rewrite String.eqb_refl.
  - intros Hsubscribed Htype. unfold ws_emit.
    destruct (inv_listeners _ _ HI) as [Hempty|[base ->]]; [congruence|].
    rewrite updates_handlers, Htype, String.eqb_refl.
    assert (Hcalls : calls (handleMessage (updatesOptions tag) m st)
                     = calls st ++ [CallOnMessage m]).
    { destruct (handleMessage_calls (updatesOptions tag) m st) as (_ & ->).
      cbn [updatesOptions onConnect onError onMessage].
      now rewrite !andb_false_r. }
    destruct ("error" =? tag)%string; cbn [app fold_left runHandler];
      unfold errorListener; fields; rewrite Hcalls, onUpdateCalls_app;
      f_equal; cbn; unfold updatesOnMessage;
      now rewrite Htype, String.eqb_refl.
  - intros Htype. unfold ws_emit.
    destruct (inv_listeners _ _ HI) as [->|[base ->]]; [reflexivity|].
    rewrite updates_handlers.
    destruct (String.eqb_spec tag (type m)) as [Heq|_];
      [now destruct Htype|].
    destruct ("error" =? type m)%string; reflexivity.
Qed.

Lemma update_hooks_deliver_witness :
  let m := mkWsMessage "anchor_update" None None "a1" in
  let st := run useAnchorUpdates [EvEffect DISCONNECTED] initial in
  onUpdateCalls "anchor_update" (calls (ws_emit useAnchorUpdates m st))
  = [m].
Proof.
  intros m st.
  assert (Hreach : reachable (updatesOptions "anchor_update") st)
    by (eexists; reflexivity).
  destruct (update_hooks_deliver "anchor_update" m st Hreach)
    as (_ & Hone & _).
  apply Hone; [vm_compute; discriminate | reflexivity].
Defined.

(** ** One cycle at a time *)

Lemma bookkeeping_frame options st st' :
  bookkeeping options st ->
  unsubscribersRef st' = unsubscribersRef st ->
  laterTimers st st' ->
  bookkeeping options st'.
Proof.
  intros [Hc Hf Hp] Hu [Hn Ht]. constructor.
  - unfold oneCycle in *. now rewrite Hu.
  - rewrite Hu. intros id Hid. specialize (Hf id Hid). lia.
  - rewrite Hu. intros t Hin Hid. destruct (Ht t Hin) as [Hold|Hnew].
    + now apply Hp.
    + specialize (Hf _ Hid). lia.
Qed.

Lemma bookkeeping_disposed options (st' : Hook) :
  unsubscribersRef st' = [] -> bookkeeping options st'.
Proof.
  intros Hu. constructor; unfold oneCycle; rewrite Hu;
    [now left | intros ? [] | intros ? ? []].
Qed.

Lemma laterTimers_refl st : laterTimers st st.
Proof. split; [lia | auto]. Qed.

Lemma laterTimers_same st st' :
  timers st' = timers st -> nextTimer st' = nextTimer st ->
  laterTimers st st'.
Proof. intros Ht Hn. split; [lia | rewrite Ht; auto]. Qed.

Lemma laterTimers_scheduleReconnect options captured random st :
  laterTimers st (scheduleReconnect options captured random st).
Proof.
  destruct (clearReconnectTimeout_frame st)
    as (_ & Hs & Ha & Hn & _ & _ & Hsub).
  cbv zeta in *.
  destruct (shouldReconnectRef st) eqn:Hon.
  - destruct (Z.lt_ge_cases (reconnectAttemptsRef st)
                            (maxReconnectAttempts options)) as [Hlt|Hge].
    + destruct (scheduleReconnect_armed options captured random st Hon Hlt)
        as (_ & _ & _ & Ht).
      destruct (scheduleReconnect_cases options captured random st)
        as [(_ & _ & Hnext)|([] & _)]; [|now split].
      cbv zeta in *. split; [lia|]. rewrite Ht. intros t Hin.
      apply in_app_or in Hin as [Hin|[<-|[]]]; [left; auto | right; cbn; lia].
    + destruct (scheduleReconnect_refused options captured random st
                  (or_intror Hge)) as (_ & _ & _ & _ & Hnext & Ht).
      cbv zeta in *. split; [lia|]. rewrite Ht. auto.
  - destruct (scheduleReconnect_refused options captured random st
                (or_introl Hon)) as (_ & _ & _ & _ & Hnext & Ht).
    cbv zeta in *. split; [lia|]. rewrite Ht. auto.
Qed.

Lemma unsubscribers_checkConnection options captured random st :
  unsubscribersRef (checkConnection options captured random st)
  = unsubscribersRef st /\
  laterTimers st (checkConnection options captured random st).
Proof.
  unfold checkConnection. cbv zeta.
  repeat match goal with
         | |- context [if ?b then _ else _] => destruct b
         end; fields;
    try (split; [reflexivity | apply laterTimers_same; reflexivity]).
  set (st0 := set_connectionId None (set_isConnected false st)).
  split.
  - now destruct (scheduleReconnect_frame options captured random st0)
      as (_ & _ & _ & _ & _ & -> & _).
  - apply (laterTimers_scheduleReconnect options captured random st0).
Qed.

Lemma unsubscribers_handlers options m hs st :
  unsubscribersRef (fold_left (runHandler options m) hs st)
  = unsubscribersRef st /\
  nextTimer (fold_left (runHandler options m) hs st) = nextTimer st.
Proof.
  revert st. induction hs as [|h hs IH]; intros st; cbn [fold_left];
    [split; reflexivity|].
  destruct (IH (runHandler options m st h)) as [-> ->].
  destruct h; cbn [runHandler]; [|split; reflexivity].
  unfold handleMessage, invoke.
  repeat match goal with |- context [if ?b then _ else _] =>
           destruct b end; split; reflexivity.
Qed.

Lemma bookkeeping_connect options captured st :
  invariant options st -> bookkeeping options st ->
  bookkeeping options (connect options captured st).
Proof.
  intros HI HB.
  destruct (isConnectingRef st) eqn:Hflag;
    [unfold connect; now rewrite Hflag|].
  destruct (ws_isConnected (wsRef st)) eqn:Hconn;
    [unfold connect; now rewrite Hflag, Hconn|].
  destruct (connect_cycle options captured st HI Hflag Hconn)
    as (_ & Hu & _).
  cbv zeta in Hu.
  assert (Hclear : forall id,
            In (ClearInterval id)
               (unsubscribersRef (connect options captured st)) ->
            id = nextTimer st).
  { intros id Hid. rewrite Hu in Hid. unfold cycleDisposers in Hid.
    apply in_app_or in Hid as [Hid|[[= <-]|[]]]; [|reflexivity].
    apply in_map_iff in Hid as (l & Heq & _). discriminate. }
  constructor.
  - right. eauto.
  - intros id Hid. rewrite (Hclear id Hid).
    rewrite connect_spec by assumption. fields. lia.
  - intros t Hin Hid. apply Hclear in Hid.
    rewrite connect_spec in Hin by assumption. fields.
    apply in_app_or in Hin as [Hin|[<-|[]]]; [|reflexivity].
    apply filter_In in Hin as [Hin _].
    pose proof (inv_timer_fresh _ _ HI t Hin). lia.
Qed.

Lemma bookkeeping_step options st e :
  invariant options st -> bookkeeping options st ->
  bookkeeping options (step options st e).
Proof.
  intros HI HB.
  assert (Hclear : forall id, bookkeeping options (clearTimer id st)).
  { intros id. apply bookkeeping_frame with (st := st);
      [assumption | reflexivity |].
    split; [cbn; lia|]. unfold clearTimer. fields. intros t Hin.
    apply filter_In in Hin as [Hin _]. auto. }
  destruct e as [c| |c| | |m|id random|connected id throws]; cbn [step].
  - unfold effect. destruct (autoConnect options); [|assumption].
    apply bookkeeping_connect.
    + apply invariant_frame with (st := st); try assumption;
        try reflexivity. apply (inv_attempts _ _ HI).
    + apply bookkeeping_frame with (st := st);
        [assumption | reflexivity | apply laterTimers_same; reflexivity].
  - apply bookkeeping_disposed. unfold cleanup.
    apply disconnect_flags.
  - apply bookkeeping_disposed. unfold reconnect, setTimer. fields.
    apply disconnect_flags.
  - apply bookkeeping_disposed. apply disconnect_flags.
  - apply bookkeeping_frame with (st := st);
      [assumption | reflexivity | apply laterTimers_same; reflexivity].
  - unfold ws_emit.
    destruct (unsubscribers_handlers options m
                (map l_handler
                   (filter (matches m) (ws_listeners (wsRef st)))) st)
      as [Hu Hn].
    apply bookkeeping_frame with (st := st); [assumption | exact Hu |].
    apply laterTimers_same; [apply timers_handlers | exact Hn].
  - unfold timerFires. destruct (findTimer id st) as [t|]; [|assumption].
    destruct (t_kind t) as [c d|c|c].
    + unfold retryFires. apply bookkeeping_connect.
      * apply invariant_frame with (st := clearTimer id st);
          try reflexivity; [now apply invariant_clearTimer|].
        apply (inv_attempts _ _ HI).
      * apply bookkeeping_frame with (st := clearTimer id st);
          [apply Hclear | reflexivity | apply laterTimers_same; reflexivity].
    + apply bookkeeping_connect;
        [now apply invariant_clearTimer | apply Hclear].
    + destruct (unsubscribers_checkConnection options c random st)
        as [Hu Hl].
      now apply bookkeeping_frame with (st := st).
  - apply bookkeeping_frame with (st := st);
      [assumption | reflexivity | apply laterTimers_same; reflexivity].
Qed.

Lemma bookkeeping_reachable options st :
  reachable options st -> invariant options st /\ bookkeeping options st.
Proof.
  intros [es ->]. unfold run.
  assert (H0 : invariant options initial /\ bookkeeping options initial).
  { split; [apply invariant_initial|].
    now apply bookkeeping_disposed. }
  revert H0. generalize initial as s.
  induction es as [|e es IH]; intros s [HI HB]; cbn [fold_left];
    [now split|].
  apply IH. split; [now apply invariant_step | now apply bookkeeping_step].
Qed.

(** X11.  Nothing piles up over reconnect cycles.  In every reachable
    state the hook's listeners on the transport are either none or exactly
    those of one [connect()], [unsubscribersRef] holds either nothing or
    exactly the disposers of that one cycle, and at most one poll interval
    is pending. *)
Theorem one_cycle_at_a_time options (st : Hook) :
  reachable options st ->
  (ws_listeners (wsRef st) = [] \/
   exists base, ws_listeners (wsRef st) = subscriptions options base) /\
  (unsubscribersRef st = [] \/
   exists base timer,
     unsubscribersRef st = cycleDisposers options base timer) /\
  (List.length (pendingPolls st) <= 1)%nat.
Proof.
  intros Hreach.
  destruct (bookkeeping_reachable options st Hreach) as [HI HB].
  splits; [apply (inv_listeners _ _ HI) | apply (bk_cycle _ _ HB) |].
  unfold pendingPolls.
  destruct (bk_cycle _ _ HB) as [Hempty|(base & timer & Hshape)].
  - rewrite filter_nil; [cbn; lia|]. intros t Ht.
    destruct (isPoll t) eqn:Hp; [|reflexivity].
    pose proof (inv_poll _ _ HI t Ht Hp) as Hin.
    rewrite Hempty in Hin. destruct Hin.
  - rewrite <- (length_map t_id). apply NoDup_constant with (a := timer).
    + apply handles_distinct_filter, (inv_timer_nodup _ _ HI).
    + intros x Hx. apply in_map_iff in Hx as (t & <- & Ht).
      apply filter_In in Ht as [Ht Hp].
      pose proof (inv_poll _ _ HI t Ht Hp) as Hin.
      rewrite Hshape in Hin. unfold cycleDisposers in Hin.
      apply in_app_or in Hin as [Hin|[[= <-]|[]]]; [|reflexivity].
      apply in_map_iff in Hin as (l & Heq & _). discriminate.
Qed.

Lemma one_cycle_at_a_time_witness :
  let st := run default_options
                [EvEffect DISCONNECTED; EvCleanup; EvEffect CONNECTING;
                 EvTimer 2 0; EvTimer 3 0; EvReconnect RECONNECTING;
                 EvTimer 5 0] initial in
  List.length (ws_listeners (wsRef st)) = 2%nat /\
  (List.length (pendingPolls st) <= 1)%nat.
Proof.
  intros st.
  assert (Hreach : reachable default_options st)
    by (eexists; reflexivity).
  destruct (one_cycle_at_a_time default_options st Hreach) as (_ & _ & Hp).
  split; [vm_compute; reflexivity | exact Hp].
Defined.

(** ** reconnect() and its 100 ms timer *)

Lemma filter_within {A} (p q : A -> bool) (l : list A) :
  (forall a, In a l -> p a = true -> q a = true) ->
  filter p (filter q l) = filter p l.
Proof.
  induction l as [|a l IH]; cbn; intros H; [reflexivity|].
  destruct (p a) eqn:Hp.
  - rewrite (H a) by auto. cbn. rewrite Hp. f_equal. apply IH. auto.
  - destruct (q a); cbn; rewrite ?Hp; apply IH; auto.
Qed.

Lemma reachable_step options st e :
  reachable options st -> reachable options (step options st e).
Proof.
  intros [es ->]. exists (es ++ [e]). unfold run.
  now rewrite fold_left_app.
Qed.

Lemma settles_disconnect options st :
  invariant options st -> bookkeeping options st ->
  pendingSettles (disconnect options st) = pendingSettles st /\
  timers (disconnect options st) = pendingSettles st /\
  nextTimer (disconnect options st) = nextTimer st.
Proof.
  intros HI HB.
  assert (Hkept : forall t, In t (timers st) -> isSettle t = true ->
            negb (disposedTimer (unsubscribersRef st) t) = true).
  { intros t Ht Hs. destruct (disposedTimer _ t) eqn:Hd; [|reflexivity].
    apply existsb_exists in Hd as (d & Hd & Heq).
    destruct d as [|id]; [discriminate|]. apply Nat.eqb_eq in Heq.
    subst id. pose proof (bk_poll _ _ HB t Ht Hd) as Hp.
    unfold isSettle, isPoll in *. destruct (t_kind t); discriminate. }
  assert (Hsettles : pendingSettles (disconnect options st)
                     = pendingSettles st /\
                     nextTimer (disconnect options st) = nextTimer st).
  { unfold pendingSettles, disconnect, invoke, ws_disconnect, disposeAll.
    rewrite fold_runDisposer. unfold clearReconnectTimeout.
    destruct (onDisconnect options); fields;
      destruct (reconnectTimeoutRef st) as [id|] eqn:Href; fields;
      (split; [|reflexivity]);
      try (unfold clearTimer; fields; rewrite filter_within;
           [ apply filter_within; intros t Ht Hs;
             destruct (Nat.eqb (t_id t) id) eqn:Heq; [|reflexivity];
             apply Nat.eqb_eq in Heq; subst id;
             pose proof (inv_handle_retry _ _ HI t Ht Href) as Hr;
             unfold isSettle, isRetry in *; destruct (t_kind t);
             discriminate
           | intros t Ht Hs; apply filter_In in Ht as [Ht _];
             now apply Hkept ]);
      now apply filter_within. }
  destruct Hsettles as [Hs Hn]. splits; try assumption.
  destruct (disconnect_spec options st HI) as (_ & _ & _ & _ & Hall & _).
  cbv zeta in Hall. rewrite <- Hs. unfold pendingSettles at 1.
  symmetry. apply filter_id. intros t Ht. specialize (Hall t Ht).
  unfold pendingSettles in Hall. now apply filter_In in Hall as [_ Hall].
Qed.

Lemma settles_reconnect options captured st :
  invariant options st -> bookkeeping options st ->
  timers (reconnect options captured st)
  = pendingSettles st ++ [mkTimer (nextTimer st) (SettleTimer captured)] /\
  pendingSettles (reconnect options captured st)
  = pendingSettles st ++ [mkTimer (nextTimer st) (SettleTimer captured)].
Proof.
  intros HI HB.
  destruct (settles_disconnect options st HI HB) as (_ & Ht & Hn).
  assert (Heq : timers (reconnect options captured st)
                = pendingSettles st
                  ++ [mkTimer (nextTimer st) (SettleTimer captured)]).
  { unfold reconnect, setTimer. fields. now rewrite Ht, Hn. }
  split; [exact Heq|].
  unfold pendingSettles at 1. rewrite Heq, filter_app. cbn.
  f_equal. unfold pendingSettles. apply filter_id. intros t Hin.
  now apply filter_In in Hin as [_ Hin].
Qed.

(** X12.  The 100 ms timers of [reconnect()] are never cancelled.  On a
    reachable state [disconnect()] leaves every pending one in place, and
    [reconnect()] leaves exactly them and a new one, with the counter at 0,
    auto-reconnect on and the state machine in Disconnected; so [n] calls
    of the returned [connect()] in a row leave [n] more of these timers
    pending, each of which will call [connect()]. *)
Theorem settle_timers_accumulate options (st : Hook) :
  reachable options st ->
  pendingSettles (disconnect options st) = pendingSettles st /\
  (forall captured,
     let st' := reconnect options captured st in
     timers st'
     = pendingSettles st
       ++ [mkTimer (nextTimer st) (SettleTimer captured)] /\
     reconnectAttemptsRef st' = 0 /\
     shouldReconnectRef st' = true /\
     connectionState st' = DISCONNECTED /\
     ws_listeners (wsRef st') = []) /\
  (forall cs : list ConnectionState,
     List.length
       (pendingSettles
          (fold_left (fun s captured => reconnect options captured s) cs st))
     = (List.length (pendingSettles st) + List.length cs)%nat).
Proof.
  intros Hreach. splits.
  - destruct (bookkeeping_reachable options st Hreach) as [HI HB].
    now destruct (settles_disconnect options st HI HB) as (Hs & _).
  - intros captured st'. subst st'.
    destruct (bookkeeping_reachable options st Hreach) as [HI HB].
    destruct (settles_reconnect options captured st HI HB) as (Ht & _).
    destruct (disconnect_spec options st HI)
      as (_ & Hl & _ & _ & _ & _ & _ & _ & _ & _ & _ & Hs & _).
    cbv zeta in *. splits; try assumption; try reflexivity.
  - intros cs. revert st Hreach.
    induction cs as [|c cs IH]; intros st Hreach; cbn [fold_left List.length];
      [lia|].
    rewrite IH by (apply (reachable_step options st (EvReconnect c) Hreach)).
    destruct (bookkeeping_reachable options st Hreach) as [HI HB].
    destruct (settles_reconnect options c st HI HB) as (_ & ->).
    rewrite length_app. cbn [List.length]. lia.
Qed.

Lemma settle_timers_accumulate_witness :
  let st := run default_options [EvEffect DISCONNECTED] initial in
  let st' :=
    fold_left (fun s captured => reconnect default_options captured s)
              [CONNECTING; DISCONNECTED; DISCONNECTED] st in
  List.length (pendingSettles st') = 3%nat /\
  pendingSettles (disconnect default_options st') = pendingSettles st'.
Proof.
  intros st st'.
  assert (Hreach : reachable default_options st)
    by (eexists; reflexivity).
  assert (Hreach' : reachable default_options st')
    by (exists [EvEffect DISCONNECTED; EvReconnect CONNECTING;
                EvReconnect DISCONNECTED; EvReconnect DISCONNECTED];
        reflexivity).
  destruct (settle_timers_accumulate default_options st Hreach)
    as (_ & _ & Hn).
  destruct (settle_timers_accumulate default_options st' Hreach')
    as (Hkeep & _).
  split; [exact (Hn [CONNECTING; DISCONNECTED; DISCONNECTED]) | exact Hkeep].
Defined.

(** ** Timers coming due, and the effect running again *)

Lemma findTimer_pending options st t :
  invariant options st -> In t (timers st) ->
  findTimer (t_id t) st = Some t.
Proof.
  intros HI. unfold findTimer.
  pose proof (inv_timer_nodup _ _ HI) as Hnodup.
  induction (timers st) as [|a l IH]; cbn; [intros []|].
  inversion Hnodup as [|? ? Hnotin Hrest]; subst.
  intros [->|Hin]; [now rewrite Nat.eqb_refl|].
  destruct (Nat.eqb (t_id a) (t_id t)) eqn:Heq; [|now apply IH].
  apply Nat.eqb_eq in Heq. exfalso. apply Hnotin. rewrite Heq.
  apply in_map_iff. eauto.
Qed.

(** X13.  A retry timer that comes due clears the in-flight flag before it
    calls [connect()], so with the transport down the retry always goes
    ahead, whatever the flag was: the transport's [connect()] is invoked
    once, the listeners are replaced by those of a new cycle, and no retry
    timer is pending any more.  The counter keeps its value and the handle
    of the timer that ran stays in [reconnectTimeoutRef]. *)
Theorem retry_timer_reconnects options random (st : Hook) (t : Timer)
    captured delay :
  reachable options st ->
  In t (timers st) ->
  t_kind t = RetryTimer captured delay ->
  ws_isConnected (wsRef st) = false ->
  let st' := timerFires options (t_id t) random st in
  transportConnects st' = S (transportConnects st) /\
  ws_listeners (wsRef st')
  = subscriptions options (ws_nextListener (wsRef st)) /\
  pendingRetries st' = [] /\
  pendingPolls st' = [mkTimer (nextTimer st) (PollInterval captured)] /\
  reconnectAttemptsRef st' = reconnectAttemptsRef st /\
  reconnectTimeoutRef st' = Some (t_id t) /\
  connectionState st'
  = (if ws_throws (wsRef st) then DISCONNECTED else CONNECTING).
Proof.
  intros Hreach Hin Hkind Hdown st'. subst st'.
  pose proof (invariant_reachable _ _ Hreach) as HI.
  assert (Hretry : isRetry t = true) by (unfold isRetry; now rewrite Hkind).
  pose proof (inv_retry _ _ HI t Hin Hretry) as Hhandle.
  unfold timerFires. rewrite (findTimer_pending options st t HI Hin), Hkind.
  unfold retryFires.
  set (st0 := set_isConnectingRef false (clearTimer (t_id t) st)).
  assert (HI0 : invariant options st0).
  { apply invariant_frame with (st := clearTimer (t_id t) st);
      try reflexivity; [now apply invariant_clearTimer|].
    apply (inv_attempts _ _ HI). }
  destruct (connect_cycle options captured st0 HI0 eq_refl Hdown)
    as (H1 & _ & H3 & _ & H5 & _ & H7 & _ & H9 & _).
  cbv zeta in *. splits; try assumption.
  - now rewrite (transportConnects_connect options captured st0).
  - apply filter_nil. intros x Hx.
    apply timers_connect in Hx as [Hx|Hp].
    + unfold st0, clearTimer in Hx. fields.
      apply filter_In in Hx as [Hx Hne].
      destruct (isRetry x) eqn:Hr; [|reflexivity].
      pose proof (inv_retry _ _ HI x Hx Hr) as Hsame.
      rewrite Hhandle in Hsame. injection Hsame as Hsame.
      now rewrite Hsame, Nat.eqb_refl in Hne.
    + destruct (isRetry x) eqn:Hr; [|reflexivity].
      now destruct (isRetry_not_poll x).
  - now rewrite H9.
Qed.

Lemma retry_timer_reconnects_witness :
  let st := run default_options
                [EvEffect CONNECTING; EvTimer 1 0] initial in
  let st' := timerFires default_options 2 0 st in
  isConnectingRef st = true /\
  transportConnects st' = 2%nat /\
  pendingRetries st' = [] /\
  reconnectTimeoutRef st' = Some 2%nat.
Proof.
  intros st st'.
  assert (Hreach : reachable default_options st)
    by (eexists; reflexivity).
  destruct (retry_timer_reconnects default_options 0 st
              (mkTimer 2 (RetryTimer CONNECTING 1000)) CONNECTING 1000
              Hreach)
    as (H1 & _ & H3 & _ & _ & H6 & _);
    [vm_compute; right; left; reflexivity | reflexivity | reflexivity|].
  splits; [reflexivity | exact H1 | exact H3 | exact H6].
Defined.

(** X14.  When the effect runs again (cleanup, then body) the hook starts
    from scratch: the reconnect counter is 0 and no retry timer is pending,
    whatever they were.  With [autoConnect] the transport, which its
    [disconnect()] has just closed, is asked to connect once more and the
    listeners are those of the new cycle; without [autoConnect] nothing is
    registered and auto-reconnect stays off. *)
Theorem effect_rerun_starts_over options captured (st : Hook) :
  reachable options st ->
  let st' := effect options captured (cleanup options st) in
  reconnectAttemptsRef st' = 0 /\
  pendingRetries st' = [] /\
  shouldReconnectRef st' = autoConnect options /\
  (autoConnect options = true ->
   transportConnects st' = S (transportConnects st) /\
   ws_listeners (wsRef st')
   = subscriptions options (ws_nextListener (wsRef st)) /\
   pendingPolls st' = [mkTimer (nextTimer st) (PollInterval captured)]) /\
  (autoConnect options = false ->
   ws_listeners (wsRef st') = [] /\
   pendingPolls st' = [] /\
   connectionState st' = DISCONNECTED).
Proof.
  intros Hreach st'. subst st'.
  pose proof (reachable_step options st EvCleanup Hreach) as Hreach1.
  cbn [step] in Hreach1.
  pose proof (invariant_reachable _ _ Hreach1) as HI1.
  pose proof (invariant_reachable _ _ Hreach) as HI.
  set (st0 := set_shouldReconnectRef false st).
  assert (HI0 : invariant options st0).
  { apply invariant_frame with (st := st); try assumption;
      try reflexivity. apply (inv_attempts _ _ HI). }
  destruct (disconnect_spec options st0 HI0)
    as (_ & Hl & Hr & Hp & _ & _ & Hs & Hf & Ha & _ & _ & Hstate & Hdown & _).
  destruct (settles_disconnect options st0)
    as (_ & _ & Hn); [assumption | |].
  { destruct (bookkeeping_reachable options st Hreach) as [_ HB].
    apply bookkeeping_frame with (st := st);
      [assumption | reflexivity | apply laterTimers_same; reflexivity]. }
  assert (Hnl : ws_nextListener (wsRef (disconnect options st0))
                = ws_nextListener (wsRef st)).
  { unfold disconnect, invoke, ws_disconnect, disposeAll.
    rewrite fold_runDisposer. unfold clearReconnectTimeout.
    destruct (onDisconnect options); fields;
      destruct (reconnectTimeoutRef st0); reflexivity. }
  assert (Hcalls : transportConnects (disconnect options st0)
                   = transportConnects st).
  { unfold transportConnects. rewrite calls_disconnect, filter_app.
    cbn [filter isWsConnect]. destruct (onDisconnect options);
      cbn [filter isWsConnect]; now rewrite app_nil_r. }
  cbv zeta in *. unfold cleanup, effect. fold st0.
  set (st1 := disconnect options st0) in *.
  destruct (autoConnect options) eqn:Hauto.
  - set (st2 := set_shouldReconnectRef true st1).
    assert (HI2 : invariant options st2).
    { apply invariant_frame with (st := st1); try reflexivity.
      - exact HI1.
      - apply (inv_attempts _ _ HI1). }
    destruct (connect_cycle options captured st2 HI2 Hf Hdown)
      as (H1 & _ & H3 & _ & _ & _ & H7 & H8 & _).
    cbv zeta in *.
    splits; try discriminate.
    + now rewrite H7.
    + apply filter_nil. intros x Hx.
      apply timers_connect in Hx as [Hx|Hpoll].
      * destruct (isRetry x) eqn:Hre; [|reflexivity].
        assert (Hin : In x (pendingRetries st1))
          by (apply filter_In; auto).
        now rewrite Hr in Hin.
      * destruct (isRetry x) eqn:Hre; [|reflexivity].
        now destruct (isRetry_not_poll x).
    + now rewrite H8.
    + intros _. splits.
      * rewrite (transportConnects_connect options captured st2 Hf Hdown).
        unfold st2, transportConnects in *. fields. now rewrite Hcalls.
      * rewrite H1. unfold st2. fields. now rewrite Hnl.
      * rewrite H3. unfold st2. fields. now rewrite Hn.
  - splits; try assumption; try discriminate.
    intros _. splits; assumption.
Qed.

Lemma effect_rerun_starts_over_witness :
  let st := run default_options
                (EvEffect CONNECTING :: repeat (EvTimer 1 0) 3) initial in
  let st' := effect default_options RECONNECTING
                    (cleanup default_options st) in
  reconnectAttemptsRef st = 3 /\
  reconnectAttemptsRef st' = 0 /\
  transportConnects st' = 2%nat.
Proof.
  intros st st'.
  assert (Hreach : reachable default_options st)
    by (exists (EvEffect CONNECTING :: repeat (EvTimer 1 0%Q) 3);
        reflexivity).
  destruct (effect_rerun_starts_over default_options RECONNECTING st Hreach)
    as (Ha & _ & _ & Hauto & _).
  destruct Hauto as (Hc & _); [reflexivity|].
  splits; [vm_compute; reflexivity | exact Ha | exact Hc].
Defined.

(** * Properties of the error boundaries *)

(** X16.  The text of a caught error is disclosed in development only.
    Under any other [NODE_ENV] the panel shows no error text and
    [componentDidCatch] writes nothing to the console; in development the
    panel shows the error's message and the console gets one entry.  The
    [onError] prop, when given, is called with the error either way. *)
Theorem boundary_discloses_in_development_only {ReactNode : Type}
    (c : Boundary.Component) (NODE_ENV : string)
    (props : Boundary.Props ReactNode) (e : Boundary.Error) :
  let caught := Boundary.getDerivedStateFromError e in
  let effects := Boundary.componentDidCatch c NODE_ENV props e in
  (NODE_ENV <> "development" ->
   Boundary.detail (Boundary.panel c NODE_ENV props caught) = None /\
   effects
   = (if Boundary.onError props then [Boundary.OnError e] else [])) /\
  (NODE_ENV = "development" ->
   Boundary.detail (Boundary.panel c NODE_ENV props caught)
   = Some (Boundary.error_message e) /\
   exists label,
     effects
     = Boundary.ConsoleError label e
       :: (if Boundary.onError props then [Boundary.OnError e] else [])) /\
  (Boundary.onError props = true -> In (Boundary.OnError e) effects).
Proof.
  cbv zeta. unfold Boundary.componentDidCatch, Boundary.panel.
  cbn [Boundary.detail Boundary.error Boundary.getDerivedStateFromError].
  destruct (String.eqb_spec NODE_ENV "development") as [Hdev|Hdev].
  - split; [intros Hnot; now destruct Hnot|]. split.
    + intros _. split; [reflexivity | eexists; reflexivity].
    + intros Hcb. rewrite Hcb. right. now left.
  - split; [intros _; split; reflexivity|]. split.
    + intros Heq. now destruct Hdev.
    + intros Hcb. rewrite Hcb. now left.
Qed.

Lemma boundary_discloses_in_development_only_witness :
  let props := Boundary.mkProps "live feed" None true (Some "Live Updates") in
  let e := Boundary.mkError "WebSocket connection failed" in
  Boundary.detail
    (Boundary.panel Boundary.WebSocketErrorBoundary "production" props
       (Boundary.getDerivedStateFromError e)) = None /\
  Boundary.componentDidCatch Boundary.WebSocketErrorBoundary "production"
    props e = [Boundary.OnError e] /\
  Boundary.detail
    (Boundary.panel Boundary.WebSocketErrorBoundary "development" props
       (Boundary.getDerivedStateFromError e))
  = Some "WebSocket connection failed".
Proof.
  intros props e.
  destruct (boundary_discloses_in_development_only
              Boundary.WebSocketErrorBoundary "production" props e)
    as (Hprod & _ & _).
  destruct Hprod as (Hdetail & Heffects); [discriminate|].
  destruct (boundary_discloses_in_development_only
              Boundary.WebSocketErrorBoundary "development" props e)
    as (_ & Hdev & _).
  destruct Hdev as (Hshown & _); [reflexivity|].
  splits; [exact Hdetail | exact Heffects | exact Hshown].
Defined.

(** X17.  An empty [componentName] (or [chartName]) counts as none: the
    panel and the console label are those of a boundary without a name.
    A name that is not empty ends the panel's sentence and appears in the
    console label. *)
Theorem boundary_empty_name_is_no_name {ReactNode : Type}
    (truthy : ReactNode -> bool) (c : Boundary.Component)
    (NODE_ENV : string) (children : ReactNode)
    (fallback : option ReactNode) (onError : bool)
    (st : Boundary.State) (e : Boundary.Error) (name : string) :
  let empty := Boundary.mkProps children fallback onError (Some "") in
  let unnamed := Boundary.mkProps children fallback onError None in
  let named := Boundary.mkProps children fallback onError (Some name) in
  Boundary.render truthy c NODE_ENV empty st
  = Boundary.render truthy c NODE_ENV unnamed st /\
  Boundary.componentDidCatch c NODE_ENV empty e
  = Boundary.componentDidCatch c NODE_ENV unnamed e /\
  Boundary.sentence (Boundary.panel c NODE_ENV unnamed st)
  = match c with
    | Boundary.WebSocketErrorBoundary =>
        "Unable to establish real-time connection"
    | Boundary.ChartErrorBoundary => "Unable to render chart"
    end /\
  (name <> "" ->
   Boundary.sentence (Boundary.panel c NODE_ENV named st)
   = String.append
       match c with
       | Boundary.WebSocketErrorBoundary =>
           "Unable to establish connection for "
       | Boundary.ChartErrorBoundary => "Unable to render "
       end name /\
   Boundary.nameOrDefault c (Some name) = name).
Proof.
  cbv zeta. splits; try reflexivity.
  intros Hname. unfold Boundary.panel, Boundary.nameOrDefault.
  cbn [Boundary.sentence Boundary.componentName Boundary.given].
  destruct (String.eqb_spec name "") as [Heq|_]; [now destruct Hname|].
  now destruct c.
Qed.

Lemma boundary_empty_name_is_no_name_witness :
  Boundary.sentence
    (Boundary.panel Boundary.ChartErrorBoundary "production"
       (Boundary.mkProps "chart" None false (Some "Volume"))
       Boundary.initialState)
  = "Unable to render Volume".
Proof.
  destruct (boundary_empty_name_is_no_name (fun s => negb (s =? "")%string)
              Boundary.ChartErrorBoundary "production" "chart" None false
              Boundary.initialState (Boundary.mkError "x") "Volume")
    as (_ & _ & _ & Hnamed).
  destruct Hnamed as (Hsentence & _); [discriminate|].
  exact Hsentence.
Defined.
